(** * es-license-validator: the license validation engine and the telemetry
    reporter, embedded from the Go sources

    - [pkg/license/validator.go]: [License], [ValidationResult], [Validate],
      [parseLicense];
    - [pkg/phonehome/client.go]: [getValidationStatus], [getValidationMessage],
      [sendRequest], [SendPhoneHome];
    - [pkg/nodes]: [CountLabeledNodes];
    - [cmd/validator/main.go]: [runValidation].

    Go's [int] is the 64-bit integer of linux/amd64 (the Dockerfile's target),
    held in [Z] with the wrap-around written where the code does arithmetic.
    [float64] is the kernel's binary64 type.  Dynamic values ([interface{}]
    holding decoded JSON) are the inductive [json_value]; Go maps are [gmap]. *)

From Stdlib Require Import ZArith String Ascii List Bool Lia.
From Stdlib Require Import Floats.PrimFloat Floats.SpecFloat Floats.FloatOps.
From Stdlib Require Import Numbers.DecimalString Numbers.DecimalPos Numbers.Cyclic.Int63.Uint63.
From stdpp Require Import gmap strings.

Set Warnings "-register-all".

Local Open Scope Z_scope.

(** ** Machine integers *)

Definition min_int64 : Z := - 2 ^ 63.
Definition max_int64 : Z := 2 ^ 63 - 1.

(** Two's-complement wrap-around of a mathematical integer into [int64]. *)
Definition wrap64 (z : Z) : Z := (z + 2 ^ 63) mod 2 ^ 64 - 2 ^ 63.

Definition in_int64 (z : Z) : Prop := min_int64 <= z <= max_int64.

(** ** float64 conversions *)

(** [int64(f)] and [int(f)]: the fraction is discarded.  For a value outside
    [int64] (NaN and the infinities included) the Go specification leaves the
    result to the implementation; amd64's CVTTSD2SQ yields the minimal
    integer. *)
Definition float64_to_int (f : float) : Z :=
  match Prim2SF f with
  | S754_zero _ => 0
  | S754_finite s m e =>
      let mag := if 0 <=? e then Z.shiftl (Z.pos m) e else Z.shiftr (Z.pos m) (- e) in
      let z := if s then - mag else mag in
      if (min_int64 <=? z) && (z <=? max_int64) then z else min_int64
  | S754_infinity _ | S754_nan => min_int64
  end.

(** [float64(n)] for an [int64] n: the nearest binary64 value.  The kernel
    converts 63-bit magnitudes; the minimal integer, whose magnitude is
    [2^63], is a power of two and converts exactly. *)
Definition int_to_float64 (n : Z) : float :=
  if n =? min_int64 then (-9223372036854775808)%float
  else if n <? 0 then PrimFloat.opp (PrimFloat.of_uint63 (Uint63.of_Z (- n)))
  else PrimFloat.of_uint63 (Uint63.of_Z n).

(** ** Errors *)

(** Go's [error] values as this program builds them: [errors.New] and
    [fmt.Errorf] without [%w] give a plain message; [fmt.Errorf] with [%w]
    verbs keeps the formatted message and the errors it wraps. *)
Inductive error : Type :=
| errorString (s : string)
| wrapError (msg : string) (wrapped : list error).

(** [err.Error()]. *)
Definition Error (e : error) : string :=
  match e with
  | errorString s => s
  | wrapError msg _ => msg
  end.

(** The errors [e] wraps directly ([Unwrap]). *)
Definition Unwrap (e : error) : list error :=
  match e with
  | errorString _ => []
  | wrapError _ es => es
  end.

(** [fmt.Errorf(prefix + "%w", err)].  A nil operand is a bad verb: it
    prints as [%!w(<nil>)] and the error wraps nothing. *)
Definition Errorf_w (prefix : string) (err : option error) : error :=
  match err with
  | Some e => wrapError (prefix +:+ Error e) [e]
  | None => errorString (prefix +:+ "%!w(<nil>)")
  end.

(** [%d] of an integer. *)
Definition fmt_d (n : Z) : string := NilZero.string_of_int (Z.to_int n).

(** ** Decoded JSON held in [interface{}] *)

Inductive json_value : Type :=
| JNull
| JBool (b : bool)
| JNumber (f : float)
| JString (s : string)
| JArray (l : list json_value)
| JObject (m : gmap string json_value).

(** The type assertions [x.(string)], [x.(float64)], [x.(bool)],
    [x.([]interface{})] and [x.(map[string]interface{})] with their [ok]
    result; a missing map entry is the nil interface, on which each fails. *)
Definition as_string (x : option json_value) : option string :=
  match x with Some (JString s) => Some s | _ => None end.

Definition as_float64 (x : option json_value) : option float :=
  match x with Some (JNumber f) => Some f | _ => None end.

Definition as_bool (x : option json_value) : option bool :=
  match x with Some (JBool b) => Some b | _ => None end.

Definition as_slice (x : option json_value) : option (list json_value) :=
  match x with Some (JArray l) => Some l | _ => None end.

Definition as_map (x : option json_value) : option (gmap string json_value) :=
  match x with Some (JObject m) => Some m | _ => None end.

(** ** package time *)

(** A [time.Time] holds the seconds elapsed since January 1, year 1,
    00:00:00 UTC, as an [int64], and the nanoseconds within the second.  An
    instant is here its count of nanoseconds since that origin, so that the
    zero [Time] is 0 and [Before] and [After] are the order of [Z].  A
    [time.Duration] is an [int64] count of nanoseconds. *)
Definition time_Time : Type := Z.
Definition time_Duration : Type := Z.

Definition time_Second : time_Duration := 1000000000.
Definition time_Hour : time_Duration := 3600 * time_Second.

(** Seconds from year 1 to the Unix epoch. *)
Definition unixToInternal : Z := 62135596800.

(** [time.Unix(sec, 0)]. *)
Definition time_Unix (sec : Z) : time_Time :=
  wrap64 (sec + unixToInternal) * time_Second.

(** The zero [time.Time]. *)
Definition time_zero : time_Time := 0.

Definition time_Before (t u : time_Time) : bool := t <? u.
Definition time_After (t u : time_Time) : bool := u <? t.

(** [t.Sub(u)]: saturates at the extreme durations. *)
Definition time_Sub (t u : time_Time) : time_Duration :=
  Z.max min_int64 (Z.min max_int64 (t - u)).

(** [d.Hours()]:
    [hour := d / Hour; nsec := d % Hour;
     return float64(hour) + float64(nsec)/(60*60*1e9)]. *)
Definition time_Hours (d : time_Duration) : float :=
  let hour := Z.quot d time_Hour in
  let nsec := Z.rem d time_Hour in
  (int_to_float64 hour + int_to_float64 nsec / 3600000000000)%float.

(** [t.AddDate(0, 0, days)].  The runtime image (alpine without tzdata, TZ
    unset) runs in UTC, where [Date] renormalises the day of the month into
    86400 seconds per day; its arithmetic on seconds is 64-bit. *)
Definition time_AddDate_days (t : time_Time) (days : Z) : time_Time :=
  wrap64 (t / time_Second + days * 86400) * time_Second + t mod time_Second.

(** ** package license: the data model *)

(** [PhoneHomeConfig]. *)
Module PhoneHomeConfig.
Record t : Type := mk {
  Enabled : bool;
  URL : string;
  IntervalHours : Z
}.
Definition zero : t := mk false "" 0.
End PhoneHomeConfig.

(** [License].  [NodeSelector] and [Features] are nil ([None]) until
    [parseLicense] makes them. *)
Module License.
Record t : Type := mk {
  Issuer : string;
  Subject : string;
  IssuedAt : time_Time;
  ExpiresAt : time_Time;
  NotBefore : time_Time;
  LicenseID : string;
  CustomerID : string;
  CustomerName : string;
  ProductCode : string;
  ProductName : string;
  TierCode : string;
  TierName : string;
  ClusterID : string;
  ClusterName : string;
  Namespace : string;
  LicensedNodes : Z;
  MaxNodes : Z;
  NodeSelector : option (gmap string string);
  Features : option (list string);
  GracePeriodDays : Z;
  WarningDays : Z;
  PhoneHomeConfig : PhoneHomeConfig.t
}.
End License.

(** [ValidationResult], with the field assignments [Validate] performs on it
    ([result.F = x] is [set_F x result]). *)
Module ValidationResult.
Record t : Type := mk {
  Valid : bool;
  License : option License.t;
  Error : option error;
  ExpiresAt : time_Time;
  DaysUntilExpiry : Z;
  IsInGracePeriod : bool;
  NodeCount : Z;
  LicensedNodes : Z;
  NodeCountValid : bool;
  NamespaceValid : bool;
  ActualNamespace : string;
  LicenseNamespace : string;
  SignatureValid : bool;
  ExpiryValid : bool;
  ValidationTime : time_Time
}.

(** The zero value, [ValidationResult{}]. *)
Definition zero : t :=
  mk false None None time_zero 0 false 0 0 false false "" "" false false time_zero.

Definition set_Valid (x : bool) (r : t) : t :=
  mk x (r.(License)) (r.(Error)) (r.(ExpiresAt)) (r.(DaysUntilExpiry)) (r.(IsInGracePeriod)) (r.(NodeCount)) (r.(LicensedNodes)) (r.(NodeCountValid)) (r.(NamespaceValid)) (r.(ActualNamespace)) (r.(LicenseNamespace)) (r.(SignatureValid)) (r.(ExpiryValid)) (r.(ValidationTime)).

Definition set_License (x : option License.t) (r : t) : t :=
  mk (r.(Valid)) x (r.(Error)) (r.(ExpiresAt)) (r.(DaysUntilExpiry)) (r.(IsInGracePeriod)) (r.(NodeCount)) (r.(LicensedNodes)) (r.(NodeCountValid)) (r.(NamespaceValid)) (r.(ActualNamespace)) (r.(LicenseNamespace)) (r.(SignatureValid)) (r.(ExpiryValid)) (r.(ValidationTime)).

Definition set_Error (x : option error) (r : t) : t :=
  mk (r.(Valid)) (r.(License)) x (r.(ExpiresAt)) (r.(DaysUntilExpiry)) (r.(IsInGracePeriod)) (r.(NodeCount)) (r.(LicensedNodes)) (r.(NodeCountValid)) (r.(NamespaceValid)) (r.(ActualNamespace)) (r.(LicenseNamespace)) (r.(SignatureValid)) (r.(ExpiryValid)) (r.(ValidationTime)).

Definition set_ExpiresAt (x : time_Time) (r : t) : t :=
  mk (r.(Valid)) (r.(License)) (r.(Error)) x (r.(DaysUntilExpiry)) (r.(IsInGracePeriod)) (r.(NodeCount)) (r.(LicensedNodes)) (r.(NodeCountValid)) (r.(NamespaceValid)) (r.(ActualNamespace)) (r.(LicenseNamespace)) (r.(SignatureValid)) (r.(ExpiryValid)) (r.(ValidationTime)).

Definition set_DaysUntilExpiry (x : Z) (r : t) : t :=
  mk (r.(Valid)) (r.(License)) (r.(Error)) (r.(ExpiresAt)) x (r.(IsInGracePeriod)) (r.(NodeCount)) (r.(LicensedNodes)) (r.(NodeCountValid)) (r.(NamespaceValid)) (r.(ActualNamespace)) (r.(LicenseNamespace)) (r.(SignatureValid)) (r.(ExpiryValid)) (r.(ValidationTime)).

Definition set_IsInGracePeriod (x : bool) (r : t) : t :=
  mk (r.(Valid)) (r.(License)) (r.(Error)) (r.(ExpiresAt)) (r.(DaysUntilExpiry)) x (r.(NodeCount)) (r.(LicensedNodes)) (r.(NodeCountValid)) (r.(NamespaceValid)) (r.(ActualNamespace)) (r.(LicenseNamespace)) (r.(SignatureValid)) (r.(ExpiryValid)) (r.(ValidationTime)).

Definition set_LicensedNodes (x : Z) (r : t) : t :=
  mk (r.(Valid)) (r.(License)) (r.(Error)) (r.(ExpiresAt)) (r.(DaysUntilExpiry)) (r.(IsInGracePeriod)) (r.(NodeCount)) x (r.(NodeCountValid)) (r.(NamespaceValid)) (r.(ActualNamespace)) (r.(LicenseNamespace)) (r.(SignatureValid)) (r.(ExpiryValid)) (r.(ValidationTime)).

Definition set_NodeCountValid (x : bool) (r : t) : t :=
  mk (r.(Valid)) (r.(License)) (r.(Error)) (r.(ExpiresAt)) (r.(DaysUntilExpiry)) (r.(IsInGracePeriod)) (r.(NodeCount)) (r.(LicensedNodes)) x (r.(NamespaceValid)) (r.(ActualNamespace)) (r.(LicenseNamespace)) (r.(SignatureValid)) (r.(ExpiryValid)) (r.(ValidationTime)).

Definition set_NamespaceValid (x : bool) (r : t) : t :=
  mk (r.(Valid)) (r.(License)) (r.(Error)) (r.(ExpiresAt)) (r.(DaysUntilExpiry)) (r.(IsInGracePeriod)) (r.(NodeCount)) (r.(LicensedNodes)) (r.(NodeCountValid)) x (r.(ActualNamespace)) (r.(LicenseNamespace)) (r.(SignatureValid)) (r.(ExpiryValid)) (r.(ValidationTime)).

Definition set_LicenseNamespace (x : string) (r : t) : t :=
  mk (r.(Valid)) (r.(License)) (r.(Error)) (r.(ExpiresAt)) (r.(DaysUntilExpiry)) (r.(IsInGracePeriod)) (r.(NodeCount)) (r.(LicensedNodes)) (r.(NodeCountValid)) (r.(NamespaceValid)) (r.(ActualNamespace)) x (r.(SignatureValid)) (r.(ExpiryValid)) (r.(ValidationTime)).

Definition set_SignatureValid (x : bool) (r : t) : t :=
  mk (r.(Valid)) (r.(License)) (r.(Error)) (r.(ExpiresAt)) (r.(DaysUntilExpiry)) (r.(IsInGracePeriod)) (r.(NodeCount)) (r.(LicensedNodes)) (r.(NodeCountValid)) (r.(NamespaceValid)) (r.(ActualNamespace)) (r.(LicenseNamespace)) x (r.(ExpiryValid)) (r.(ValidationTime)).

Definition set_ExpiryValid (x : bool) (r : t) : t :=
  mk (r.(Valid)) (r.(License)) (r.(Error)) (r.(ExpiresAt)) (r.(DaysUntilExpiry)) (r.(IsInGracePeriod)) (r.(NodeCount)) (r.(LicensedNodes)) (r.(NodeCountValid)) (r.(NamespaceValid)) (r.(ActualNamespace)) (r.(LicenseNamespace)) (r.(SignatureValid)) x (r.(ValidationTime)).

End ValidationResult.

(** ** parseLicense *)

(** [if x, ok := claims[key].(string); ok { license.F = x }] leaves the
    zero value in [F] unless the claim is present with that dynamic type;
    likewise for the numeric claims, converted by [int(x)], and the
    timestamps, by [time.Unix(int64(x), 0)]. *)
Definition claim_string (claims : gmap string json_value) (key : string) : string :=
  match as_string (claims !! key) with
  | Some x => x
  | None => ""
  end.

Definition claim_int (claims : gmap string json_value) (key : string) : Z :=
  match as_float64 (claims !! key) with
  | Some x => float64_to_int x
  | None => 0
  end.

Definition claim_time (claims : gmap string json_value) (key : string) : time_Time :=
  match as_float64 (claims !! key) with
  | Some x => time_Unix (float64_to_int x)
  | None => time_zero
  end.

Definition claim_bool (claims : gmap string json_value) (key : string) : bool :=
  match as_bool (claims !! key) with
  | Some x => x
  | None => false
  end.

(** The node-selector loop keeps the entries whose value is a string; the
    features loop appends the elements that are strings, in order. *)
Definition parse_node_selector (claims : gmap string json_value) : option (gmap string string) :=
  match as_map (claims !! "node_selector") with
  | Some nodeSelector => Some (omap (fun v => as_string (Some v)) nodeSelector)
  | None => None
  end.

Definition parse_features (claims : gmap string json_value) : option (list string) :=
  match as_slice (claims !! "features") with
  | Some features => Some (omap (fun f => as_string (Some f)) features)
  | None => None
  end.

Definition parse_phone_home (claims : gmap string json_value) : PhoneHomeConfig.t :=
  match as_map (claims !! "phone_home") with
  | Some phoneHome =>
      PhoneHomeConfig.mk (claim_bool phoneHome "enabled")
                         (claim_string phoneHome "url")
                         (claim_int phoneHome "interval_hours")
  | None => PhoneHomeConfig.zero
  end.

(** [parseLicense]: every field is assigned at most once, from its own claim;
    the returned error is nil on every path. *)
Definition parseLicense (claims : gmap string json_value) : License.t * option error :=
  ({| License.Issuer := claim_string claims "iss";
      License.Subject := claim_string claims "sub";
      License.IssuedAt := claim_time claims "iat";
      License.ExpiresAt := claim_time claims "exp";
      License.NotBefore := claim_time claims "nbf";
      License.LicenseID := claim_string claims "license_id";
      License.CustomerID := claim_string claims "customer_id";
      License.CustomerName := claim_string claims "customer_name";
      License.ProductCode := claim_string claims "product_code";
      License.ProductName := claim_string claims "product_name";
      License.TierCode := claim_string claims "tier_code";
      License.TierName := claim_string claims "tier_name";
      License.ClusterID := claim_string claims "cluster_id";
      License.ClusterName := claim_string claims "cluster_name";
      License.Namespace := claim_string claims "namespace";
      License.LicensedNodes := claim_int claims "licensed_nodes";
      License.MaxNodes := claim_int claims "max_nodes";
      License.NodeSelector := parse_node_selector claims;
      License.Features := parse_features claims;
      License.GracePeriodDays := claim_int claims "grace_period_days";
      License.WarningDays := claim_int claims "warning_days";
      License.PhoneHomeConfig := parse_phone_home claims |},
   None).

(** ** Fallible calls *)

(** A Go call returning [(x, err)] is a value of [error + A]; [x ← c; k]
    returns early with the error of [c]. *)
#[global] Instance result_ret : MRet (sum error) := fun _ x => inr x.
#[global] Instance result_bind : MBind (sum error) := fun _ _ f c =>
  match c with
  | inl err => inl err
  | inr x => f x
  end.

(** [if err != nil { return wrap(err) }]. *)
Definition or_fail {A : Type} (wrap : error -> error) (c : error + A) : error + A :=
  match c with
  | inl err => inl (wrap err)
  | inr x => inr x
  end.

(** ** package strings *)

(** [strings.Split(s, ".")], accumulating the current part in [acc]. *)
Fixpoint split_dots (acc : string) (s : string) : list string :=
  match s with
  | EmptyString => [acc]
  | String c rest =>
      if Ascii.eqb c "."%char then acc :: split_dots "" rest
      else split_dots (acc +:+ String c "") rest
  end.

Definition strings_Split_dot (s : string) : list string := split_dots "" s.

(** ** github.com/golang-jwt/jwt/v5, as far as [Validate] relies on it *)

(** The registered signing methods, by the Go type of each. *)
Inductive jwt_SigningMethod : Type :=
| SigningMethodHMAC (Name : string)
| SigningMethodRSA (Name : string)
| SigningMethodRSAPSS (Name : string)
| SigningMethodECDSA (Name : string)
| SigningMethodEd25519
| signingMethodNone.

Definition jwt_signingMethods : list (string * jwt_SigningMethod) :=
  [ ("HS256", SigningMethodHMAC "HS256");
    ("HS384", SigningMethodHMAC "HS384");
    ("HS512", SigningMethodHMAC "HS512");
    ("RS256", SigningMethodRSA "RS256");
    ("RS384", SigningMethodRSA "RS384");
    ("RS512", SigningMethodRSA "RS512");
    ("PS256", SigningMethodRSAPSS "PS256");
    ("PS384", SigningMethodRSAPSS "PS384");
    ("PS512", SigningMethodRSAPSS "PS512");
    ("ES256", SigningMethodECDSA "ES256");
    ("ES384", SigningMethodECDSA "ES384");
    ("ES512", SigningMethodECDSA "ES512");
    ("EdDSA", SigningMethodEd25519);
    ("none", signingMethodNone) ].

(** [jwt.GetSigningMethod(alg)]; [None] is the nil method. *)
Definition jwt_GetSigningMethod (alg : string) : option jwt_SigningMethod :=
  (list_to_map jwt_signingMethods : gmap string jwt_SigningMethod) !! alg.

(** [jwt.Token]; [Method] is set from the moment the parser builds one. *)
Module jwt_Token.
Record t : Type := mk {
  Raw : string;
  Method : jwt_SigningMethod;
  Header : gmap string json_value;
  Claims : gmap string json_value;
  Signature : string;
  Valid : bool
}.
End jwt_Token.

(** The library's sentinel errors and [newError(message, err, more...)],
    which formats [err: message: more...] and wraps all of them. *)
Definition jwt_ErrTokenMalformed : error := errorString "token is malformed".
Definition jwt_ErrTokenUnverifiable : error := errorString "token is unverifiable".
Definition jwt_ErrTokenSignatureInvalid : error := errorString "token signature is invalid".
Definition jwt_ErrTokenInvalidClaims : error := errorString "token has invalid claims".

Definition jwt_newError (message : string) (err : error) (more : list error) : error :=
  let head := if String.eqb message "" then Error err else Error err +:+ ": " +:+ message in
  wrapError (fold_left (fun text e => text +:+ ": " +:+ Error e) more head) (err :: more).

(** What the parser takes from outside this repository: the key type, the
    base64url and JSON decoders, the signature check of each signing method,
    the validation of the registered claims ([exp], [nbf], ...) at the
    library's own reading of the clock, and [fmt]'s [%v] of a dynamic
    value. *)
Class jwt_Primitives : Type := {
  rsa_PublicKey : Type;
  jwt_DecodeSegment : string -> error + string;
  json_Unmarshal : string -> error + gmap string json_value;
  jwt_Verify : jwt_SigningMethod -> string -> string -> rsa_PublicKey -> option error;
  jwt_validate_claims : gmap string json_value -> time_Time -> option error;
  fmt_v : option json_value -> string
}.

Section Parser.
Context `{jwt_Primitives}.

(** [Parser.ParseUnverified]: three segments, the header and the claims
    decoded, and the signing method looked up from the header's [alg]. *)
Definition jwt_ParseUnverified (tokenString : string) : error + (jwt_Token.t * list string) :=
  let parts := strings_Split_dot tokenString in
  match parts with
  | [part0; part1; part2] =>
      headerBytes ← or_fail (fun err => jwt_newError "could not base64 decode header" jwt_ErrTokenMalformed [err])
                      (jwt_DecodeSegment part0);
      header ← or_fail (fun err => jwt_newError "could not JSON decode header" jwt_ErrTokenMalformed [err])
                 (json_Unmarshal headerBytes);
      claimBytes ← or_fail (fun err => jwt_newError "could not base64 decode claim" jwt_ErrTokenMalformed [err])
                     (jwt_DecodeSegment part1);
      claims ← or_fail (fun err => jwt_newError "could not JSON decode claim" jwt_ErrTokenMalformed [err])
                 (json_Unmarshal claimBytes);
      match as_string (header !! "alg") with
      | Some method =>
          match jwt_GetSigningMethod method with
          | Some m =>
              inr (jwt_Token.mk tokenString m header claims "" false, parts)
          | None =>
              inl (jwt_newError "signing method (alg) is unavailable" jwt_ErrTokenUnverifiable [])
          end
      | None =>
          inl (jwt_newError "signing method (alg) is unspecified" jwt_ErrTokenUnverifiable [])
      end
  | _ =>
      inl (jwt_newError "token contains an invalid number of segments" jwt_ErrTokenMalformed [])
  end.

(** [Parser.ParseWithClaims] with the default options, [now] being the
    library's reading of the clock: the key function is asked for the key,
    the signature segment is decoded and checked by the token's method under
    that key, and the registered claims are validated; only then is the
    token marked valid.  (Releases of v5 differ in whether the signature
    segment is decoded before or after the key function runs; the two orders
    reject the same tokens.) *)
Definition jwt_ParseWithClaims (now : time_Time) (tokenString : string)
    (keyFunc : jwt_Token.t -> error + rsa_PublicKey) : error + jwt_Token.t :=
  '(token, parts) ← jwt_ParseUnverified tokenString;
  key ← or_fail (fun err => jwt_newError "error while executing keyfunc" jwt_ErrTokenUnverifiable [err])
          (keyFunc token);
  signature ← or_fail (fun err => jwt_newError "could not base64 decode signature" jwt_ErrTokenMalformed [err])
                (jwt_DecodeSegment (nth 2 parts ""));
  let text := nth 0 parts "" +:+ "." +:+ nth 1 parts "" in
  match jwt_Verify (jwt_Token.Method token) text signature key with
  | Some err => inl (jwt_newError "" jwt_ErrTokenSignatureInvalid [err])
  | None =>
      match jwt_validate_claims (jwt_Token.Claims token) now with
      | Some err => inl (jwt_newError "" jwt_ErrTokenInvalidClaims [err])
      | None =>
          inr (jwt_Token.mk (jwt_Token.Raw token) (jwt_Token.Method token)
                 (jwt_Token.Header token) (jwt_Token.Claims token) signature true)
      end
  end.

(** ** Validate *)

(** [Validator]: the trusted RSA public key. *)
Record Validator : Type := { publicKey : rsa_PublicKey }.

(** The key function [Validate] hands to the parser: the token's method must
    be of type [*jwt.SigningMethodRSA]. *)
Definition keyFunc (v : Validator) (token : jwt_Token.t) : error + rsa_PublicKey :=
  match jwt_Token.Method token with
  | SigningMethodRSA _ => inr (publicKey v)
  | _ =>
      inl (errorString ("unexpected signing method: " +:+ fmt_v (jwt_Token.Header token !! "alg")))
  end.

(** [fmt.Errorf] for the namespace mismatch. *)
Definition namespace_mismatch (licenseNamespace actualNamespace : string) : error :=
  errorString ("namespace mismatch: license is for namespace '" +:+ licenseNamespace
               +:+ "' but validator is running in '" +:+ actualNamespace +:+ "'").

(** Lines 136-165 of [Validate]: the checks on a decoded license.  [now] is
    the reading of [time.Now()] taken for them. *)
Definition Validate_checks (now : time_Time) (license : License.t)
    (actualNodeCount : Z) (actualNamespace : string)
    (result : ValidationResult.t) : ValidationResult.t :=
  let result := ValidationResult.set_License (Some license) result in
  let result := ValidationResult.set_ExpiresAt (License.ExpiresAt license) result in
  let result := ValidationResult.set_LicensedNodes (License.LicensedNodes license) result in
  let result := ValidationResult.set_LicenseNamespace (License.Namespace license) result in
  (* Check expiration *)
  let result := ValidationResult.set_DaysUntilExpiry
                  (float64_to_int (time_Hours (time_Sub (License.ExpiresAt license) now) / 24)%float)
                  result in
  let result := ValidationResult.set_ExpiryValid (time_Before now (License.ExpiresAt license)) result in
  (* Check if in grace period *)
  let gracePeriodEnd := time_AddDate_days (License.ExpiresAt license) (License.GracePeriodDays license) in
  let result := ValidationResult.set_IsInGracePeriod
                  (time_After now (License.ExpiresAt license) && time_Before now gracePeriodEnd)
                  result in
  (* Check node count *)
  let result := ValidationResult.set_NodeCountValid
                  (actualNodeCount <=? License.LicensedNodes license) result in
  (* Check namespace match *)
  let result := ValidationResult.set_NamespaceValid
                  (String.eqb actualNamespace (License.Namespace license)) result in
  (* Overall validity *)
  let result := ValidationResult.set_Valid
                  (ValidationResult.SignatureValid result
                   && (ValidationResult.ExpiryValid result || ValidationResult.IsInGracePeriod result)
                   && ValidationResult.NodeCountValid result
                   && ValidationResult.NamespaceValid result)
                  result in
  if negb (ValidationResult.NamespaceValid result) then
    let result := ValidationResult.set_Error
                    (Some (namespace_mismatch (License.Namespace license) actualNamespace)) result in
    ValidationResult.set_Valid false result
  else result.

(** [Validator.Validate].  [t_start], [t_parse] and [t_check] are the three
    successive readings of the clock: [ValidationTime], the library's own
    while it validates the registered claims, and [now] of line 142. *)
Definition Validate (v : Validator) (t_start t_parse t_check : time_Time)
    (licenseJWT : string) (actualNodeCount : Z) (actualNamespace : string)
    : ValidationResult.t :=
  let result :=
    {| ValidationResult.Valid := false;
       ValidationResult.License := None;
       ValidationResult.Error := None;
       ValidationResult.ExpiresAt := time_zero;
       ValidationResult.DaysUntilExpiry := 0;
       ValidationResult.IsInGracePeriod := false;
       ValidationResult.NodeCount := actualNodeCount;
       ValidationResult.LicensedNodes := 0;
       ValidationResult.NodeCountValid := false;
       ValidationResult.NamespaceValid := false;
       ValidationResult.ActualNamespace := actualNamespace;
       ValidationResult.LicenseNamespace := "";
       ValidationResult.SignatureValid := false;
       ValidationResult.ExpiryValid := false;
       ValidationResult.ValidationTime := t_start |} in
  match jwt_ParseWithClaims t_parse licenseJWT (keyFunc v) with
  | inl err =>
      let result := ValidationResult.set_Error (Some (Errorf_w "JWT validation failed: " (Some err))) result in
      ValidationResult.set_Valid false result
  | inr token =>
      let result := ValidationResult.set_SignatureValid (jwt_Token.Valid token) result in
      (* token.Claims is the *jwt.MapClaims handed to the parser: ok holds *)
      if negb (jwt_Token.Valid token) then
        let result := ValidationResult.set_Error (Some (errorString "invalid JWT claims")) result in
        ValidationResult.set_Valid false result
      else
        match parseLicense (jwt_Token.Claims token) with
        | (_, Some err) =>
            let result := ValidationResult.set_Error (Some (Errorf_w "failed to parse license: " (Some err))) result in
            ValidationResult.set_Valid false result
        | (license, None) =>
            Validate_checks t_check license actualNodeCount actualNamespace result
        end
  end.

End Parser.

(** ** package phonehome *)

(** [PhoneHomeRequest], the wire payload. *)
Module PhoneHomeRequest.
Record t : Type := mk {
  LicenseID : string;
  ClusterID : string;
  ClusterName : string;
  NodeCount : Z;
  LicensedNodes : Z;
  ValidationStatus : string;
  ValidationMessage : string;
  DaysUntilExpiry : Z;
  IsInGracePeriod : bool;
  ProductCode : string;
  TierCode : string;
  Timestamp : time_Time;
  Metadata : gmap string string
}.
End PhoneHomeRequest.

(** [PhoneHomeResponse]. *)
Module PhoneHomeResponse.
Record t : Type := mk {
  Status : string;
  Message : string
}.
End PhoneHomeResponse.

(** [Client]; [timeout] is the one of its [http.Client]. *)
Record Client : Type := {
  serverURL : string;
  timeout : time_Duration;
  retries : Z
}.

Definition NewClient (serverURL : string) (timeout : time_Duration) (retries : Z) : Client :=
  {| serverURL := serverURL; timeout := timeout; retries := retries |}.

(** [getValidationStatus]. *)
Definition getValidationStatus (result : ValidationResult.t) : string :=
  if ValidationResult.Valid result then "valid"
  else if ValidationResult.IsInGracePeriod result then "grace_period"
  else if negb (ValidationResult.ExpiryValid result) then "expired"
  else if negb (ValidationResult.NodeCountValid result) then "node_limit_exceeded"
  else if negb (ValidationResult.SignatureValid result) then "invalid_signature"
  else "invalid".

(** [getValidationMessage]. *)
Definition getValidationMessage (result : ValidationResult.t) : string :=
  if ValidationResult.Valid result then "License is valid"
  else
    match ValidationResult.Error result with
    | Some err => Error err
    | None =>
        if ValidationResult.IsInGracePeriod result then
          "License expired but in grace period ("
          +:+ fmt_d (wrap64 (- ValidationResult.DaysUntilExpiry result))
          +:+ " days until grace period ends)"
        else if negb (ValidationResult.ExpiryValid result) then "License has expired"
        else if negb (ValidationResult.NodeCountValid result) then
          "Node count (" +:+ fmt_d (ValidationResult.NodeCount result)
          +:+ ") exceeds licensed nodes (" +:+ fmt_d (ValidationResult.LicensedNodes result) +:+ ")"
        else if negb (ValidationResult.SignatureValid result) then "Invalid license signature"
        else "License validation failed"
    end.

(** What one call of [sendRequest] meets outside the program: the request
    cannot be marshalled or built, the transport fails, or the server answers
    with a status code and a body that decodes, or not, to a
    [PhoneHomeResponse]. *)
Inductive transport_Outcome : Type :=
| MarshalFailed (err : error)
| NewRequestFailed (err : error)
| DoFailed (err : error)
| Responded (StatusCode : Z) (body : error + PhoneHomeResponse.t).

(** [Client.sendRequest], given what the call meets. *)
Definition sendRequest (outcome : transport_Outcome) : option error :=
  match outcome with
  | MarshalFailed err => Some (Errorf_w "failed to marshal request: " (Some err))
  | NewRequestFailed err => Some (Errorf_w "failed to create request: " (Some err))
  | DoFailed err => Some (Errorf_w "failed to send request: " (Some err))
  | Responded StatusCode body =>
      if (StatusCode <? 200) || (300 <=? StatusCode) then
        Some (errorString ("server returned error status: " +:+ fmt_d StatusCode))
      else
        match body with
        | inl err => Some (Errorf_w "failed to decode response: " (Some err))
        | inr phoneHomeResp =>
            if negb (String.eqb (PhoneHomeResponse.Status phoneHomeResp) "success")
               && negb (String.eqb (PhoneHomeResponse.Status phoneHomeResp) "ok")
            then Some (errorString ("phone home failed: " +:+ PhoneHomeResponse.Message phoneHomeResp))
            else None
        end
  end.

(** The surroundings of one [SendPhoneHome]: what the call of [sendRequest]
    made in iteration [attempt] meets, for the URL and payload it posts, and
    which case of the [select] before iteration [attempt] is taken:
    [Some reason] when [ctx.Done()] is received during the wait, [reason]
    being [ctx.Err()], [None] when the timer fires. *)
Record Delivery : Type := {
  transport : Z -> string -> PhoneHomeRequest.t -> transport_Outcome;
  ctx_Done : Z -> option error
}.

(** What [SendPhoneHome] does, in order. *)
Inductive event : Type :=
| Waited (backoff : time_Duration)
| Interrupted (backoff : time_Duration)
| Sent (attempt : Z).

(** [time.Duration(attempt*attempt) * time.Second]. *)
Definition backoff_of (attempt : Z) : time_Duration :=
  wrap64 (wrap64 (attempt * attempt) * time_Second).

(** The retry loop of [SendPhoneHome], from iteration [attempt] on; each
    unit of [fuel] pays for one evaluation of the loop condition. *)
Fixpoint send_with_retries (fuel : nat) (c : Client) (env : Delivery)
    (req : PhoneHomeRequest.t) (attempt : Z) (lastErr : option error)
    : option (list event * option error) :=
  match fuel with
  | O => None
  | S fuel =>
      if attempt <=? retries c then
        match (if 0 <? attempt then ctx_Done env attempt else None) with
        | Some reason => Some ([Interrupted (backoff_of attempt)], Some reason)
        | None =>
            let waited := if 0 <? attempt then [Waited (backoff_of attempt)] else [] in
            match sendRequest (transport env attempt (serverURL c +:+ "/api/v1/validate") req) with
            | None => Some (waited ++ [Sent attempt], None)
            | Some err =>
                '(rest, r) ← send_with_retries fuel c env req (wrap64 (attempt + 1)) (Some err);
                Some (waited ++ Sent attempt :: rest, r)
            end
        end
      else
        Some ([], Some (Errorf_w ("phone home failed after " +:+ fmt_d (retries c) +:+ " retries: ") lastErr))
  end.

(** The payload [SendPhoneHome] prepares; [now] is the reading of the clock
    for its timestamp. *)
Definition prepare_request (now : time_Time) (validationResult : ValidationResult.t)
    (lic : License.t) : PhoneHomeRequest.t :=
  {| PhoneHomeRequest.LicenseID := License.LicenseID lic;
     PhoneHomeRequest.ClusterID := License.ClusterID lic;
     PhoneHomeRequest.ClusterName := License.ClusterName lic;
     PhoneHomeRequest.NodeCount := ValidationResult.NodeCount validationResult;
     PhoneHomeRequest.LicensedNodes := ValidationResult.LicensedNodes validationResult;
     PhoneHomeRequest.ValidationStatus := getValidationStatus validationResult;
     PhoneHomeRequest.ValidationMessage := getValidationMessage validationResult;
     PhoneHomeRequest.DaysUntilExpiry := ValidationResult.DaysUntilExpiry validationResult;
     PhoneHomeRequest.IsInGracePeriod := ValidationResult.IsInGracePeriod validationResult;
     PhoneHomeRequest.ProductCode := License.ProductCode lic;
     PhoneHomeRequest.TierCode := License.TierCode lic;
     PhoneHomeRequest.Timestamp := now;
     PhoneHomeRequest.Metadata :=
       <["customer_id" := License.CustomerID lic]>
         (<["customer_name" := License.CustomerName lic]>
            (<["product_name" := License.ProductName lic]>
               (<["tier_name" := License.TierName lic]> ∅))) |}.

(** [Client.SendPhoneHome]. *)
Definition SendPhoneHome (fuel : nat) (c : Client) (env : Delivery) (now : time_Time)
    (validationResult : option ValidationResult.t) : option (list event * option error) :=
  match validationResult ≫= (fun r => pair r <$> ValidationResult.License r) with
  | None => Some ([], Some (errorString "validation result or license is nil"))
  | Some (validationResult, lic) =>
      send_with_retries fuel c env (prepare_request now validationResult lic) 0 None
  end.

(** ** package config *)

Module Config.
Record t : Type := mk {
  LicenseSecretName : string;
  LicenseSecretNamespace : string;
  LicenseSecretKey : string;
  NodeLabelKey : string;
  NodeLabelValue : string;
  LicenseServerURL : string;
  PhoneHomeEnabled : bool;
  PhoneHomeInterval : time_Duration;
  PhoneHomeRetries : Z;
  PhoneHomeTimeout : time_Duration;
  ValidationInterval : time_Duration;
  FailOpen : bool;
  GracePeriodDays : Z;
  HTTPPort : Z;
  MetricsPort : Z;
  HealthCheckInterval : time_Duration;
  LogLevel : string;
  LogFormat : string
}.
End Config.

(** ** package nodes *)

(** [Counter.CountLabeledNodes], given the outcome of listing the nodes that
    carry the label (the items by name). *)
Definition CountLabeledNodes (listed : error + list string) : Z * option error :=
  match listed with
  | inl err => (0, Some (Errorf_w "failed to list nodes: " (Some err)))
  | inr items => (Z.of_nat (length items), None)
  end.

(** ** cmd/validator: one validation cycle *)

Section Service.
Context `{jwt_Primitives}.

(** [ValidatorService]: the configuration, the validator, the reporter (nil
    when phone home is disabled) and the latest result.  The node counter
    and the Kubernetes client are handles to the cluster, whose answers in
    one cycle are a [Cycle]. *)
Record ValidatorService : Type := {
  cfg : Config.t;
  validator : Validator;
  phoneHomeClient : option Client;
  currentResult : option ValidationResult.t
}.

Definition set_currentResult (r : ValidationResult.t) (s : ValidatorService) : ValidatorService :=
  {| cfg := cfg s; validator := validator s; phoneHomeClient := phoneHomeClient s;
     currentResult := Some r |}.

(** What one cycle meets: the secret read ([Data], values as strings), the
    node listing, and the readings of the clock. *)
Record Cycle : Type := {
  secret_Get : error + gmap string string;
  nodes_List : error + list string;
  now_start : time_Time;
  now_parse : time_Time;
  now_check : time_Time
}.

(** The result stored when the license cannot be read:
    [ValidationResult{Valid: false, Error: err, ValidationTime: time.Now()}]. *)
Definition failed_result (err : error) (now : time_Time) : ValidationResult.t :=
  {| ValidationResult.Valid := false;
     ValidationResult.License := None;
     ValidationResult.Error := Some err;
     ValidationResult.ExpiresAt := time_zero;
     ValidationResult.DaysUntilExpiry := 0;
     ValidationResult.IsInGracePeriod := false;
     ValidationResult.NodeCount := 0;
     ValidationResult.LicensedNodes := 0;
     ValidationResult.NodeCountValid := false;
     ValidationResult.NamespaceValid := false;
     ValidationResult.ActualNamespace := "";
     ValidationResult.LicenseNamespace := "";
     ValidationResult.SignatureValid := false;
     ValidationResult.ExpiryValid := false;
     ValidationResult.ValidationTime := now |}.

(** [ValidatorService.runValidation] (logging left out): the service after
    the cycle, and the result handed to the detached reporting task, if one
    is started. *)
Definition runValidation (s : ValidatorService) (w : Cycle)
    : ValidatorService * option ValidationResult.t :=
  match secret_Get w with
  | inl err =>
      (set_currentResult
         (failed_result (Errorf_w "failed to read license secret: " (Some err)) (now_start w)) s,
       None)
  | inr Data =>
      match Data !! Config.LicenseSecretKey (cfg s) with
      | None =>
          (set_currentResult
             (failed_result (errorString "license key not found in secret") (now_start w)) s,
           None)
      | Some licenseJWT =>
          (* Count labeled nodes *)
          let '(nodeCount, err) := CountLabeledNodes (nodes_List w) in
          let nodeCount := match err with Some _ => 0 | None => nodeCount end in
          (* Validate license (including namespace binding check) *)
          let result :=
            Validate (validator s) (now_start w) (now_parse w) (now_check w)
              licenseJWT nodeCount (Config.LicenseSecretNamespace (cfg s)) in
          let s := set_currentResult result s in
          (* Phone home if enabled *)
          if Config.PhoneHomeEnabled (cfg s)
             && bool_decide (is_Some (phoneHomeClient s))
             && bool_decide (is_Some (ValidationResult.License result))
          then (s, Some result)
          else (s, None)
      end
  end.

End Service.

(** ** package strconv *)

(** [ch - '0'] when it is at most 9. *)
Definition digit_value (ch : ascii) : option Z :=
  let code := Z.of_N (N_of_ascii ch) in
  if (48 <=? code) && (code <=? 57) then Some (code - 48) else None.

(** The digits of [s] read from the left onto [n]: [n = n*10 + digit]. *)
Fixpoint parse_digits (n : Z) (s : string) : option Z :=
  match s with
  | EmptyString => Some n
  | String ch s =>
      match digit_value ch with
      | Some d => parse_digits (n * 10 + d) s
      | None => None
      end
  end.

(** [strconv.Atoi]: an optional sign, at least one decimal digit and nothing
    else, the value within [int]; [None] stands for its error, syntax or
    range, which the callers here never inspect.  (The fast path for short
    strings and [ParseInt] agree on this.) *)
Definition strconv_Atoi (s : string) : option Z :=
  match s with
  | EmptyString => None
  | String c rest =>
      let signed := Ascii.eqb c "-"%char || Ascii.eqb c "+"%char in
      let digits := if signed then rest else s in
      match digits with
      | EmptyString => None
      | _ =>
          match parse_digits 0 digits with
          | Some n =>
              let n := if Ascii.eqb c "-"%char then - n else n in
              if (min_int64 <=? n) && (n <=? max_int64) then Some n else None
          | None => None
          end
      end
  end.

(** [strconv.ParseBool]: the twelve accepted spellings. *)
Definition strconv_ParseBool (str : string) : option bool :=
  if bool_decide (str ∈ ["1"; "t"; "T"; "true"; "TRUE"; "True"]) then Some true
  else if bool_decide (str ∈ ["0"; "f"; "F"; "false"; "FALSE"; "False"]) then Some false
  else None.

(** ** package config: loading *)

(** The process environment; [os.Getenv] gives the empty string for a
    variable that is not set. *)
Definition os_Getenv (env : gmap string string) (key : string) : string :=
  default "" (env !! key).

Definition getEnv (env : gmap string string) (key defaultValue : string) : string :=
  let value := os_Getenv env key in
  if negb (String.eqb value "") then value else defaultValue.

Definition getEnvInt (env : gmap string string) (key : string) (defaultValue : Z) : Z :=
  let value := os_Getenv env key in
  if negb (String.eqb value "") then
    match strconv_Atoi value with
    | Some i => i
    | None => defaultValue
    end
  else defaultValue.

Definition getEnvBool (env : gmap string string) (key : string) (defaultValue : bool) : bool :=
  let value := os_Getenv env key in
  if negb (String.eqb value "") then
    match strconv_ParseBool value with
    | Some b => b
    | None => defaultValue
    end
  else defaultValue.

Section Loading.
(** [time.ParseDuration], from outside this repository; [None] is its error. *)
Variable time_ParseDuration : string -> option time_Duration.

Definition getEnvDuration (env : gmap string string) (key : string)
    (defaultValue : time_Duration) : time_Duration :=
  let value := os_Getenv env key in
  if negb (String.eqb value "") then
    match time_ParseDuration value with
    | Some d => d
    | None => defaultValue
    end
  else defaultValue.

(** [LoadConfig].  [GracePeriodDays] is not set and keeps its zero value. *)
Definition LoadConfig (env : gmap string string) : error + Config.t :=
  let cfg :=
    {| Config.LicenseSecretName := getEnv env "LICENSE_SECRET_NAME" "es-license";
       Config.LicenseSecretNamespace := getEnv env "LICENSE_SECRET_NAMESPACE" "default";
       Config.LicenseSecretKey := getEnv env "LICENSE_SECRET_KEY" "license.jwt";
       Config.NodeLabelKey := getEnv env "NODE_LABEL_KEY" "es-products.io/licensed";
       Config.NodeLabelValue := getEnv env "NODE_LABEL_VALUE" "true";
       Config.LicenseServerURL := getEnv env "LICENSE_SERVER_URL" "";
       Config.PhoneHomeEnabled := getEnvBool env "PHONE_HOME_ENABLED" true;
       Config.PhoneHomeInterval := getEnvDuration env "PHONE_HOME_INTERVAL" (24 * time_Hour);
       Config.PhoneHomeRetries := getEnvInt env "PHONE_HOME_RETRIES" 3;
       Config.PhoneHomeTimeout := getEnvDuration env "PHONE_HOME_TIMEOUT" (30 * time_Second);
       Config.ValidationInterval := getEnvDuration env "VALIDATION_INTERVAL" (5 * (60 * time_Second));
       Config.FailOpen := getEnvBool env "FAIL_OPEN" true;
       Config.GracePeriodDays := 0;
       Config.HTTPPort := getEnvInt env "HTTP_PORT" 8080;
       Config.MetricsPort := getEnvInt env "METRICS_PORT" 9090;
       Config.HealthCheckInterval := getEnvDuration env "HEALTH_CHECK_INTERVAL" (30 * time_Second);
       Config.LogLevel := getEnv env "LOG_LEVEL" "info";
       Config.LogFormat := getEnv env "LOG_FORMAT" "json" |} in
  (* Validate required fields *)
  if String.eqb (Config.LicenseServerURL cfg) "" && Config.PhoneHomeEnabled cfg then
    inl (errorString "LICENSE_SERVER_URL is required when PHONE_HOME_ENABLED=true")
  else inr cfg.

End Loading.

(** ** package nodes: all nodes *)

(** [Counter.CountAllNodes], given the outcome of listing every node. *)
Definition CountAllNodes (listed : error + list string) : Z * option error :=
  match listed with
  | inl err => (0, Some (Errorf_w "failed to list all nodes: " (Some err)))
  | inr items => (Z.of_nat (length items), None)
  end.

(** ** cmd/validator: the loop and the HTTP handlers *)

(** The values the handlers encode: strings, booleans, integers and nested
    maps. *)
Inductive body_value : Type :=
| BString (s : string)
| BBool (b : bool)
| BInt (n : Z)
| BObject (m : gmap string body_value).

(** What a handler writes: the status code (200 unless [WriteHeader] says
    otherwise), the content type, and the map it encodes as JSON. *)
Module http_Response.
Record t : Type := mk {
  StatusCode : Z;
  ContentType : string;
  Body : gmap string body_value
}.
End http_Response.

Definition http_StatusOK : Z := 200.
Definition http_StatusServiceUnavailable : Z := 503.

Section Exposition.
Context `{jwt_Primitives}.
(** [t.Format(time.RFC3339)], from outside this repository. *)
Variable time_Format_RFC3339 : time_Time -> string.


(** [ValidatorService.healthHandler]; [now] is the reading of the clock. *)
Definition healthHandler (s : ValidatorService) (now : time_Time) : http_Response.t :=
  http_Response.mk http_StatusOK "application/json"
    (<["status" := BString "healthy"]> (<["time" := BString (time_Format_RFC3339 now)]> ∅)).

(** [ValidatorService.readyHandler]. *)
Definition readyHandler (s : ValidatorService) : http_Response.t :=
  match currentResult s with
  | None =>
      http_Response.mk http_StatusServiceUnavailable "application/json"
        (<["status" := BString "not_ready"]>
           (<["message" := BString "No validation result yet"]> ∅))
  | Some result =>
      if ValidationResult.Valid result
         || (Config.FailOpen (cfg s) && ValidationResult.IsInGracePeriod result)
      then
        http_Response.mk http_StatusOK "application/json" (<["status" := BString "ready"]> ∅)
      else
        http_Response.mk http_StatusServiceUnavailable "application/json"
          (<["status" := BString "not_ready"]>
             (<["message" := BString "License validation failed"]>
                (<["valid" := BBool (ValidationResult.Valid result)]> ∅)))
  end.

(** The nested license summary of [statusHandler]. *)
Definition license_summary (license : License.t) : gmap string body_value :=
  <["license_id" := BString (License.LicenseID license)]>
    (<["customer_name" := BString (License.CustomerName license)]>
       (<["product_code" := BString (License.ProductCode license)]>
          (<["product_name" := BString (License.ProductName license)]>
             (<["tier_code" := BString (License.TierCode license)]>
                (<["cluster_id" := BString (License.ClusterID license)]>
                   (<["namespace" := BString (License.Namespace license)]>
                      (<["expires_at" :=
                           BString (time_Format_RFC3339 (License.ExpiresAt license))]> ∅))))))).

(** [ValidatorService.statusHandler]. *)
Definition statusHandler (s : ValidatorService) : http_Response.t :=
  match currentResult s with
  | None =>
      http_Response.mk http_StatusServiceUnavailable "application/json"
        (<["status" := BString "no_validation_result"]>
           (<["message" := BString "Validation has not run yet"]> ∅))
  | Some result =>
      let response : gmap string body_value :=
        <["valid" := BBool (ValidationResult.Valid result)]>
          (<["validation_time" :=
               BString (time_Format_RFC3339 (ValidationResult.ValidationTime result))]>
             (<["node_count" := BInt (ValidationResult.NodeCount result)]>
                (<["licensed_nodes" := BInt (ValidationResult.LicensedNodes result)]>
                   (<["days_until_expiry" := BInt (ValidationResult.DaysUntilExpiry result)]>
                      (<["in_grace_period" := BBool (ValidationResult.IsInGracePeriod result)]>
                         (<["signature_valid" := BBool (ValidationResult.SignatureValid result)]>
                            (<["expiry_valid" := BBool (ValidationResult.ExpiryValid result)]>
                               (<["node_count_valid" :=
                                    BBool (ValidationResult.NodeCountValid result)]>
                                  (<["namespace_valid" :=
                                       BBool (ValidationResult.NamespaceValid result)]>
                                     (<["actual_namespace" :=
                                          BString (ValidationResult.ActualNamespace result)]>
                                        (<["license_namespace" :=
                                             BString (ValidationResult.LicenseNamespace result)]>
                                           ∅))))))))))) in
      let response :=
        match ValidationResult.License result with
        | Some license => <["license" := BObject (license_summary license)]> response
        | None => response
        end in
      let response :=
        match ValidationResult.Error result with
        | Some err => <["error" := BString (Error err)]> response
        | None => response
        end in
      (* a result that is not valid still answers 200 *)
      http_Response.mk http_StatusOK "application/json" response
  end.

End Exposition.

(** ** A concrete instance of the primitives, for evaluating the model *)

(** Segments are taken as already decoded; the JSON decoder knows the
    documents below; an RSA signature under key [k] over [text] is the string
    [k#n], [n] being the length of [text], whatever the hash, and no other
    method verifies; the registered claims are valid while the clock is
    before [exp]. *)
Definition fixture_claims (licensed_nodes : json_value) (grace_period_days : float)
    : gmap string json_value :=
  <["exp" := JNumber 2000000000]>
    (<["license_id" := JString "lic-1"]>
       (<["namespace" := JString "prod"]>
          (<["licensed_nodes" := licensed_nodes]>
             (<["grace_period_days" := JNumber grace_period_days]> ∅)))).

Definition fixture_Unmarshal (doc : string) : error + gmap string json_value :=
  if String.eqb doc "{alg:RS256}" then inr {["alg" := JString "RS256"]}
  else if String.eqb doc "{alg:RS512}" then inr {["alg" := JString "RS512"]}
  else if String.eqb doc "{alg:HS256}" then inr {["alg" := JString "HS256"]}
  else if String.eqb doc "{alg:none}" then inr {["alg" := JString "none"]}
  else if String.eqb doc "{typ:JWT}" then inr {["typ" := JString "JWT"]}
  else if String.eqb doc "{nodes:5,grace:7}" then inr (fixture_claims (JNumber 5) 7)
  else if String.eqb doc "{nodes:five,grace:7}" then inr (fixture_claims (JString "five") 7)
  else if String.eqb doc "{nodes:5,grace:-1}" then inr (fixture_claims (JNumber 5) (-1))
  else inl (errorString "invalid character").

Definition fixture_Verify (method : jwt_SigningMethod) (text signature key : string) : option error :=
  match method with
  | SigningMethodRSA _ =>
      if String.eqb signature (key +:+ "#" +:+ fmt_d (Z.of_nat (String.length text))) then None
      else Some (errorString "crypto/rsa: verification error")
  | _ => Some (errorString "key is of invalid type")
  end.

Definition fixture_validate_claims (claims : gmap string json_value) (now : time_Time) : option error :=
  match as_float64 (claims !! "exp") with
  | Some exp =>
      if time_Before now (time_Unix (float64_to_int exp)) then None
      else Some (errorString "token is expired")
  | None => None
  end.

Definition fixture_fmt_v (x : option json_value) : string :=
  match x with
  | Some (JString s) => s
  | _ => "<nil>"
  end.

Definition fixture : jwt_Primitives :=
  {| rsa_PublicKey := string;
     jwt_DecodeSegment := inr;
     json_Unmarshal := fixture_Unmarshal;
     jwt_Verify := fixture_Verify;
     jwt_validate_claims := fixture_validate_claims;
     fmt_v := fixture_fmt_v |}.

Definition fixture_validator : @Validator fixture := @Build_Validator fixture "K".

(** The instant [exp] of the fixture's licenses. *)
Definition fixture_exp : time_Time := time_Unix 2000000000.

(** ** The statements' vocabulary *)


Section Asserted.
Context `{jwt_Primitives}.



(** The result [Validate] starts from, once the token has parsed. *)
Definition parsed_result (t_start : time_Time) (actualNodeCount : Z) (actualNamespace : string)
    : ValidationResult.t :=
  {| ValidationResult.Valid := false;
     ValidationResult.License := None;
     ValidationResult.Error := None;
     ValidationResult.ExpiresAt := time_zero;
     ValidationResult.DaysUntilExpiry := 0;
     ValidationResult.IsInGracePeriod := false;
     ValidationResult.NodeCount := actualNodeCount;
     ValidationResult.LicensedNodes := 0;
     ValidationResult.NodeCountValid := false;
     ValidationResult.NamespaceValid := false;
     ValidationResult.ActualNamespace := actualNamespace;
     ValidationResult.LicenseNamespace := "";
     ValidationResult.SignatureValid := true;
     ValidationResult.ExpiryValid := false;
     ValidationResult.ValidationTime := t_start |}.

End Asserted.

(** [s] occurs in [text]. *)
Definition names (text s : string) : Prop :=
  exists pre post : string, text = pre +:+ s +:+ post.

(** A precedence list as the specification words it: the first rule whose
    condition holds gives the answer, the catch-all when none does. *)
Fixpoint first_matching {A : Type} (rules : list ((ValidationResult.t -> bool) * A))
    (otherwise : A) (result : ValidationResult.t) : A :=
  match rules with
  | [] => otherwise
  | (condition, answer) :: rules =>
      if condition result then answer else first_matching rules otherwise result
  end.

(** The six rules of the status classification, in the specification's order. *)
Definition status_rules : list ((ValidationResult.t -> bool) * string) :=
  [ (ValidationResult.Valid, "valid");
    (ValidationResult.IsInGracePeriod, "grace_period");
    (fun r => negb (ValidationResult.ExpiryValid r), "expired");
    (fun r => negb (ValidationResult.NodeCountValid r), "node_limit_exceeded");
    (fun r => negb (ValidationResult.SignatureValid r), "invalid_signature") ].

(** The messages of [getValidationMessage] by rule, each computed from the
    result. *)
Definition grace_message (r : ValidationResult.t) : string :=
  "License expired but in grace period ("
  +:+ fmt_d (wrap64 (- ValidationResult.DaysUntilExpiry r))
  +:+ " days until grace period ends)".

Definition node_limit_message (r : ValidationResult.t) : string :=
  "Node count (" +:+ fmt_d (ValidationResult.NodeCount r)
  +:+ ") exceeds licensed nodes (" +:+ fmt_d (ValidationResult.LicensedNodes r) +:+ ")".

(** The precedence [getValidationMessage] follows: an attached error comes
    second, before the grace period. *)
Definition message_rules : list ((ValidationResult.t -> bool) * (ValidationResult.t -> string)) :=
  [ (ValidationResult.Valid, fun _ => "License is valid");
    (fun r => bool_decide (is_Some (ValidationResult.Error r)),
     fun r => from_option Error "" (ValidationResult.Error r));
    (ValidationResult.IsInGracePeriod, grace_message);
    (fun r => negb (ValidationResult.ExpiryValid r), fun _ => "License has expired");
    (fun r => negb (ValidationResult.NodeCountValid r), node_limit_message);
    (fun r => negb (ValidationResult.SignatureValid r), fun _ => "Invalid license signature") ].

(** The tries and the completed waits recorded in a trace. *)
Definition tries (trace : list event) : list Z :=
  omap (fun e => match e with Sent attempt => Some attempt | _ => None end) trace.

Definition waits (trace : list event) : list time_Duration :=
  omap (fun e => match e with Waited backoff => Some backoff | _ => None end) trace.

(** The last retry whose backoff, in nanoseconds, fits a [time.Duration]. *)
Definition max_backoff_attempt : Z := 96038.

(** A delivery whose every call of [sendRequest] fails. *)
Definition always_fails (env : Delivery) : Prop :=
  forall attempt url req, is_Some (sendRequest (transport env attempt url req)).

(** [n] failed retries from retry number [attempt] on: before each, a
    completed wait of [attempt] squared seconds. *)
Fixpoint retry_rounds (n : nat) (attempt : Z) : list event :=
  match n with
  | O => []
  | S n =>
      Waited (attempt * attempt * time_Second) :: Sent attempt :: retry_rounds n (attempt + 1)
  end.

(** The URL [sendRequest] posts to. *)
Definition validate_url (c : Client) : string := serverURL c +:+ "/api/v1/validate".

(** The error returned when every try has failed. *)
Definition retries_exhausted (c : Client) (lastErr : option error) : error :=
  Errorf_w ("phone home failed after " +:+ fmt_d (retries c) +:+ " retries: ") lastErr.

(** The claims [parseLicense] reads with the assertions [.(string)] and
    [.(float64)], each with the field of the license it is assigned to: the
    string fields, the timestamps and the integers. *)
Definition string_claims : list (string * (License.t -> string)) :=
  [ ("iss", License.Issuer); ("sub", License.Subject);
    ("license_id", License.LicenseID); ("customer_id", License.CustomerID);
    ("customer_name", License.CustomerName); ("product_code", License.ProductCode);
    ("product_name", License.ProductName); ("tier_code", License.TierCode);
    ("tier_name", License.TierName); ("cluster_id", License.ClusterID);
    ("cluster_name", License.ClusterName); ("namespace", License.Namespace) ].

Definition time_claims : list (string * (License.t -> time_Time)) :=
  [ ("iat", License.IssuedAt); ("exp", License.ExpiresAt); ("nbf", License.NotBefore) ].

Definition int_claims : list (string * (License.t -> Z)) :=
  [ ("licensed_nodes", License.LicensedNodes); ("max_nodes", License.MaxNodes);
    ("grace_period_days", License.GracePeriodDays); ("warning_days", License.WarningDays) ].

(** The license of the fixture's tokens with seven days of grace. *)
Definition fixture_license : License.t := (parseLicense (fixture_claims (JNumber 5) 7)).1.

(** A result of the fixture: a valid license, checked before its expiry. *)
Definition fixture_result : ValidationResult.t :=
  @Validate fixture fixture_validator 0 (fixture_exp - 2) (fixture_exp - 1)
    "{alg:RS512}.{nodes:5,grace:7}.K#29" 3 "prod".

(** A server that answers every request with status 503, under a context
    that is never done, and under one cancelled during the wait before the
    second retry. *)
Definition unavailable_server : Delivery :=
  {| transport := fun _ _ _ => Responded 503 (inl (errorString "EOF"));
     ctx_Done := fun _ => None |}.

Definition unavailable_server_cancelled : Delivery :=
  {| transport := fun _ _ _ => Responded 503 (inl (errorString "EOF"));
     ctx_Done := fun attempt => if attempt =? 2 then Some (errorString "context canceled") else None |}.

(** A service of the fixture, bound to the namespace [prod], and a cycle in
    which the license is read and listing the nodes fails. *)
Definition fixture_config : Config.t :=
  {| Config.LicenseSecretName := "es-license";
     Config.LicenseSecretNamespace := "prod";
     Config.LicenseSecretKey := "license.jwt";
     Config.NodeLabelKey := "es-products.io/licensed";
     Config.NodeLabelValue := "true";
     Config.LicenseServerURL := "https://license.example";
     Config.PhoneHomeEnabled := true;
     Config.PhoneHomeInterval := 24 * time_Hour;
     Config.PhoneHomeRetries := 3;
     Config.PhoneHomeTimeout := 30 * time_Second;
     Config.ValidationInterval := 300 * time_Second;
     Config.FailOpen := true;
     Config.GracePeriodDays := 0;
     Config.HTTPPort := 8080;
     Config.MetricsPort := 9090;
     Config.HealthCheckInterval := 30 * time_Second;
     Config.LogLevel := "info";
     Config.LogFormat := "json" |}.

Definition fixture_service : @ValidatorService fixture :=
  @Build_ValidatorService fixture fixture_config fixture_validator
    (Some (NewClient "https://license.example" (30 * time_Second) 3)) None.

Definition outage_cycle : Cycle :=
  {| secret_Get := inr {["license.jwt" := "{alg:RS512}.{nodes:5,grace:7}.K#29"]};
     nodes_List := inl (errorString "connection refused");
     now_start := fixture_exp - 3;
     now_parse := fixture_exp - 2;
     now_check := fixture_exp - 1 |}.

(** ** Vocabulary and fixtures of the further properties *)

(** Whether a JSON value is a string. *)
Definition is_JString (x : json_value) : bool :=
  match x with
  | JString _ => true
  | _ => false
  end.

(** The claims [parseLicense] reads. *)
Definition license_claims : list string :=
  [ "iss"; "sub"; "iat"; "exp"; "nbf"; "license_id"; "customer_id"; "customer_name";
    "product_code"; "product_name"; "tier_code"; "tier_name"; "cluster_id"; "cluster_name";
    "namespace"; "licensed_nodes"; "max_nodes"; "grace_period_days"; "warning_days";
    "node_selector"; "features"; "phone_home" ].

(** The status names of [getValidationStatus], and those it gives to the
    results of [Validate]. *)
Definition status_names : list string :=
  ["valid"; "grace_period"; "expired"; "node_limit_exceeded"; "invalid_signature"; "invalid"].

Definition reported_statuses : list string :=
  ["valid"; "grace_period"; "expired"; "node_limit_exceeded"; "invalid"].

Section Reading.
Context `{jwt_Primitives}.

(** The token a cycle reads, if the secret can be read and holds the key. *)
Definition read_token (s : ValidatorService) (w : Cycle) : option string :=
  match secret_Get w with
  | inl _ => None
  | inr Data => Data !! Config.LicenseSecretKey (cfg s)
  end.

End Reading.

(** The value of the decimal digits [d] read onto [n], as [parse_digits]
    reads them. *)
Fixpoint digits_onto (n : Z) (d : Decimal.uint) : Z :=
  match d with
  | Decimal.Nil => n
  | Decimal.D0 d => digits_onto (n * 10 + 0) d
  | Decimal.D1 d => digits_onto (n * 10 + 1) d
  | Decimal.D2 d => digits_onto (n * 10 + 2) d
  | Decimal.D3 d => digits_onto (n * 10 + 3) d
  | Decimal.D4 d => digits_onto (n * 10 + 4) d
  | Decimal.D5 d => digits_onto (n * 10 + 5) d
  | Decimal.D6 d => digits_onto (n * 10 + 6) d
  | Decimal.D7 d => digits_onto (n * 10 + 7) d
  | Decimal.D8 d => digits_onto (n * 10 + 8) d
  | Decimal.D9 d => digits_onto (n * 10 + 9) d
  end.

(** Claims with a feature list and a node selector of mixed shapes. *)
Definition mixed_features : list json_value :=
  [JString "sso"; JString "sso"; JNumber 1; JString "audit"; JNull; JString "sso"].

Definition mixed_selector : gmap string json_value :=
  <["tier" := JString "gold"]> (<["zone" := JNumber 3]> ∅).

Definition mixed_claims : gmap string json_value :=
  <["features" := JArray mixed_features]> (<["node_selector" := JObject mixed_selector]> ∅).

(** The license of the fixture's tokens with a grace period of minus one
    day. *)
Definition fixture_license_no_grace : License.t :=
  (parseLicense (fixture_claims (JNumber 5) (-1))).1.

(** A server that rejects the first two tries and accepts the third, under
    a context that is never done. *)
Definition recovering_server : Delivery :=
  {| transport := fun attempt _ _ =>
       if attempt <? 2 then Responded 503 (inl (errorString "EOF"))
       else Responded 200 (inr (PhoneHomeResponse.mk "ok" ""));
     ctx_Done := fun _ => None |}.

(** A cycle in which the secret cannot be read. *)
Definition unreadable_cycle : Cycle :=
  {| secret_Get := inl (errorString "secrets es-license not found");
     nodes_List := inr ["node-a"; "node-b"];
     now_start := fixture_exp - 3;
     now_parse := fixture_exp - 2;
     now_check := fixture_exp - 1 |}.

(** A cycle in which the license is read and two labeled nodes are listed. *)
Definition counted_cycle : Cycle :=
  {| secret_Get := inr {["license.jwt" := "{alg:RS512}.{nodes:5,grace:7}.K#29"]};
     nodes_List := inr ["node-a"; "node-b"];
     now_start := fixture_exp - 3;
     now_parse := fixture_exp - 2;
     now_check := fixture_exp - 1 |}.

(** * Properties *)

(** ** Integers and instants *)

Lemma wrap64_id z : in_int64 z -> wrap64 z = z.
Proof.
  unfold in_int64, min_int64, max_int64, wrap64. intros Hz.
  rewrite Z.mod_small; lia.
Qed.

Lemma wrap64_range z : in_int64 (wrap64 z).
Proof.
  unfold in_int64, min_int64, max_int64, wrap64.
  pose proof (Z.mod_pos_bound (z + 2 ^ 63) (2 ^ 64)). lia.
Qed.

(** Without overflow of the seconds, adding days is adding 24 hours each. *)
Lemma time_AddDate_days_exact t days :
  in_int64 (t / time_Second + days * 86400) ->
  time_AddDate_days t days = t + days * (24 * time_Hour).
Proof.
  intros Hz. unfold time_AddDate_days. rewrite (wrap64_id _ Hz).
  unfold time_Hour, time_Second in *.
  pose proof (Z.div_mod t 1000000000). lia.
Qed.

Lemma time_Before_lt t u : time_Before t u = true <-> t < u.
Proof. unfold time_Before. apply Z.ltb_lt. Qed.

Lemma time_After_gt t u : time_After t u = true <-> u < t.
Proof. unfold time_After. apply Z.ltb_lt. Qed.

(** ** The checks of [Validate], field by field *)

Section Checks.
Variables (now : time_Time) (license : License.t).
Variables (actualNodeCount : Z) (actualNamespace : string) (result : ValidationResult.t).

Local Abbreviation checked := (Validate_checks now license actualNodeCount actualNamespace result).

Lemma checks_License : ValidationResult.License checked = Some license.
Proof. unfold Validate_checks. cbn. by destruct (String.eqb _ _). Qed.

Lemma checks_SignatureValid :
  ValidationResult.SignatureValid checked = ValidationResult.SignatureValid result.
Proof. unfold Validate_checks. cbn. by destruct (String.eqb _ _). Qed.

Lemma checks_ExpiryValid :
  ValidationResult.ExpiryValid checked = time_Before now (License.ExpiresAt license).
Proof. unfold Validate_checks. cbn. by destruct (String.eqb _ _). Qed.

Lemma checks_IsInGracePeriod :
  ValidationResult.IsInGracePeriod checked
  = time_After now (License.ExpiresAt license)
    && time_Before now (time_AddDate_days (License.ExpiresAt license) (License.GracePeriodDays license)).
Proof. unfold Validate_checks. cbn. by destruct (String.eqb _ _). Qed.

Lemma checks_NodeCountValid :
  ValidationResult.NodeCountValid checked = (actualNodeCount <=? License.LicensedNodes license).
Proof. unfold Validate_checks. cbn. by destruct (String.eqb _ _). Qed.

Lemma checks_NamespaceValid :
  ValidationResult.NamespaceValid checked = String.eqb actualNamespace (License.Namespace license).
Proof. unfold Validate_checks. cbn. by destruct (String.eqb _ _). Qed.

Lemma checks_NodeCount :
  ValidationResult.NodeCount checked = ValidationResult.NodeCount result.
Proof. unfold Validate_checks. cbn. by destruct (String.eqb _ _). Qed.

Lemma checks_Valid :
  ValidationResult.Valid checked
  = ValidationResult.SignatureValid result
    && (time_Before now (License.ExpiresAt license)
        || time_After now (License.ExpiresAt license)
           && time_Before now (time_AddDate_days (License.ExpiresAt license)
                                 (License.GracePeriodDays license)))
    && (actualNodeCount <=? License.LicensedNodes license)
    && String.eqb actualNamespace (License.Namespace license).
Proof.
  unfold Validate_checks. cbn.
  destruct (String.eqb _ _); cbn; [done | by rewrite andb_false_r].
Qed.

Lemma checks_Error :
  ValidationResult.Error checked
  = if String.eqb actualNamespace (License.Namespace license)
    then ValidationResult.Error result
    else Some (namespace_mismatch (License.Namespace license) actualNamespace).
Proof. unfold Validate_checks. cbn. by destruct (String.eqb _ _). Qed.

End Checks.

(** ** What [Validate] returns *)

Section ValidateFacts.
Context `{jwt_Primitives}.
Variables (v : Validator) (t_start t_parse t_check : time_Time).
Variables (licenseJWT : string) (actualNodeCount : Z) (actualNamespace : string).

Local Abbreviation validated :=
  (Validate v t_start t_parse t_check licenseJWT actualNodeCount actualNamespace).

(** A token the parser returns is marked valid. *)
Lemma ParseWithClaims_Valid now tokenString keyFunc token :
  jwt_ParseWithClaims now tokenString keyFunc = inr token -> jwt_Token.Valid token = true.
Proof.
  unfold jwt_ParseWithClaims. intros Hparse.
  destruct (jwt_ParseUnverified tokenString) as [err | [unverified parts]]; [done |].
  cbn in Hparse.
  destruct (keyFunc unverified) as [err | key]; [done |]. cbn in Hparse.
  destruct (jwt_DecodeSegment (nth 2 parts "")) as [err | signature]; [done |]. cbn in Hparse.
  destruct (jwt_Verify _ _ _ _); [done |].
  destruct (jwt_validate_claims _ _); [done |].
  by inversion Hparse.
Qed.

(** When the parser rejects the token, so does [Validate], with no license. *)
Lemma Validate_rejected err :
  jwt_ParseWithClaims t_parse licenseJWT (keyFunc v) = inl err ->
  ValidationResult.Valid validated = false
  /\ ValidationResult.License validated = None
  /\ ValidationResult.Error validated = Some (Errorf_w "JWT validation failed: " (Some err))
  /\ ValidationResult.SignatureValid validated = false.
Proof. unfold Validate. intros ->. by cbn. Qed.

(** When the parser returns a token, [Validate] is the checks on the license
    decoded from its claims. *)
Lemma Validate_parsed token :
  jwt_ParseWithClaims t_parse licenseJWT (keyFunc v) = inr token ->
  validated
  = Validate_checks t_check (parseLicense (jwt_Token.Claims token)).1
      actualNodeCount actualNamespace
      (parsed_result t_start actualNodeCount actualNamespace).
Proof.
  intros Hparse. unfold Validate. rewrite Hparse.
  by rewrite (ParseWithClaims_Valid _ _ _ _ Hparse).
Qed.

(** The result records the observed node count. *)
Lemma Validate_NodeCount : ValidationResult.NodeCount validated = actualNodeCount.
Proof.
  destruct (jwt_ParseWithClaims t_parse licenseJWT (keyFunc v)) as [err | token] eqn:Hparse.
  - unfold Validate. by rewrite Hparse.
  - by rewrite (Validate_parsed token Hparse), checks_NodeCount.
Qed.

(** A license in the result comes from a token the parser returned. *)
Lemma Validate_License_inv license :
  ValidationResult.License validated = Some license ->
  exists token,
    jwt_ParseWithClaims t_parse licenseJWT (keyFunc v) = inr token
    /\ license = (parseLicense (jwt_Token.Claims token)).1
    /\ validated
       = Validate_checks t_check license actualNodeCount actualNamespace
           (parsed_result t_start actualNodeCount actualNamespace).
Proof.
  destruct (jwt_ParseWithClaims t_parse licenseJWT (keyFunc v)) as [err | token] eqn:Hparse.
  - destruct (Validate_rejected err Hparse) as (_ & Hnone & _). by rewrite Hnone.
  - rewrite (Validate_parsed token Hparse), checks_License.
    intros [= <-]. by exists token.
Qed.

End ValidateFacts.

(** ** The verdict and its sub-checks *)

(** C2. In every result [Validate] returns, the overall flag is the
    conjunction of the four sub-checks recorded beside it: signature, expiry
    or grace period, node count, namespace.  The checks compute the flag anew
    from them: whatever flag the incoming result carries is overwritten. *)
Theorem Validate_verdict_is_conjunction `{jwt_Primitives}
    (v : Validator) (t_start t_parse t_check : time_Time)
    (licenseJWT : string) (actualNodeCount : Z) (actualNamespace : string)
    (license : License.t) (flag : bool) (incoming : ValidationResult.t) :
  let result := Validate v t_start t_parse t_check licenseJWT actualNodeCount actualNamespace in
  ValidationResult.Valid result
  = ValidationResult.SignatureValid result
    && (ValidationResult.ExpiryValid result || ValidationResult.IsInGracePeriod result)
    && ValidationResult.NodeCountValid result
    && ValidationResult.NamespaceValid result
  /\ ValidationResult.Valid
       (Validate_checks t_check license actualNodeCount actualNamespace
          (ValidationResult.set_Valid flag incoming))
     = ValidationResult.Valid
         (Validate_checks t_check license actualNodeCount actualNamespace incoming).
Proof.
  intros result. split.
  - subst result.
    destruct (jwt_ParseWithClaims t_parse licenseJWT (keyFunc v)) as [err | token] eqn:Hparse.
    + destruct (Validate_rejected v t_start t_parse t_check licenseJWT
                  actualNodeCount actualNamespace err Hparse) as (-> & _ & _ & ->).
      done.
    + rewrite (Validate_parsed v t_start t_parse t_check licenseJWT
                 actualNodeCount actualNamespace token Hparse).
      by rewrite checks_Valid, checks_SignatureValid, checks_ExpiryValid,
        checks_IsInGracePeriod, checks_NodeCountValid, checks_NamespaceValid.
  - by rewrite !checks_Valid.
Qed.

(** C3, as the code has it. The expiry check holds exactly when [now] is
    strictly before the license's expiry; at the instant of expiry itself it
    fails, and the license is not in its grace period either. *)
Theorem expiry_check_is_strict (now : time_Time) (license : License.t)
    (actualNodeCount : Z) (actualNamespace : string) (incoming : ValidationResult.t) :
  (ValidationResult.ExpiryValid
     (Validate_checks now license actualNodeCount actualNamespace incoming) = true
   <-> now < License.ExpiresAt license)
  /\ ValidationResult.ExpiryValid
       (Validate_checks (License.ExpiresAt license) license actualNodeCount actualNamespace incoming)
     = false
  /\ ValidationResult.IsInGracePeriod
       (Validate_checks (License.ExpiresAt license) license actualNodeCount actualNamespace incoming)
     = false.
Proof.
  rewrite !checks_ExpiryValid, checks_IsInGracePeriod.
  split; [apply time_Before_lt |].
  unfold time_Before, time_After. by rewrite Z.ltb_irrefl.
Qed.

(** C3 fails as stated: a token that verifies, checked at the very instant
    its license expires, has a failed expiry check (and an invalid verdict). *)
Lemma expiry_instant_is_not_valid :
  let result :=
    @Validate fixture fixture_validator 0 (fixture_exp - 1) fixture_exp
      "{alg:RS512}.{nodes:5,grace:7}.K#29" 3 "prod" in
  (License.ExpiresAt <$> ValidationResult.License result) = Some fixture_exp
  /\ ValidationResult.ExpiryValid result = false
  /\ ValidationResult.IsInGracePeriod result = false
  /\ ValidationResult.Valid result = false.
Proof. vm_compute. done. Qed.

(** C4, as the code has it. With [graceEnd] the expiry plus 24 hours per day
    of grace, for a license whose grace end the clock can represent: the
    license is in its grace period exactly when [now] is strictly after the
    expiry and strictly before [graceEnd]; from [graceEnd] on it is not in
    its grace period; and when the grace period is not negative, the expiry
    check fails from [graceEnd] on as well. *)
Theorem grace_period_window (now : time_Time) (license : License.t)
    (actualNodeCount : Z) (actualNamespace : string) (incoming : ValidationResult.t) :
  let graceEnd := License.ExpiresAt license + License.GracePeriodDays license * (24 * time_Hour) in
  let result := Validate_checks now license actualNodeCount actualNamespace incoming in
  in_int64 (License.ExpiresAt license / time_Second + License.GracePeriodDays license * 86400) ->
  (ValidationResult.IsInGracePeriod result = true
   <-> License.ExpiresAt license < now /\ now < graceEnd)
  /\ (graceEnd <= now -> ValidationResult.IsInGracePeriod result = false)
  /\ (0 <= License.GracePeriodDays license -> graceEnd <= now ->
      ValidationResult.ExpiryValid result = false
      /\ ValidationResult.IsInGracePeriod result = false).
Proof.
  intros graceEnd result Hfits. subst result.
  rewrite checks_IsInGracePeriod, checks_ExpiryValid.
  rewrite (time_AddDate_days_exact _ _ Hfits). fold graceEnd.
  unfold time_Before, time_After.
  assert (0 <= License.GracePeriodDays license -> License.ExpiresAt license <= graceEnd) as Hle.
  { subst graceEnd. unfold time_Hour, time_Second. lia. }
  repeat split.
  - rewrite andb_true_iff, !Z.ltb_lt in *. tauto.
  - rewrite andb_true_iff, !Z.ltb_lt in *. tauto.
  - rewrite andb_true_iff, !Z.ltb_lt. tauto.
  - intros Hend. apply andb_false_iff. right. apply Z.ltb_ge. lia.
  - apply Z.ltb_ge. lia.
  - apply andb_false_iff. right. apply Z.ltb_ge. lia.
Qed.

Lemma grace_period_window_witness :
  let now := fixture_exp + 3 * (24 * time_Hour) in
  let graceEnd := fixture_exp + 7 * (24 * time_Hour) in
  let result := Validate_checks now fixture_license 5 "prod" ValidationResult.zero in
  in_int64 (License.ExpiresAt fixture_license / time_Second
            + License.GracePeriodDays fixture_license * 86400)
  /\ (ValidationResult.IsInGracePeriod result = true <-> fixture_exp < now /\ now < graceEnd)
  /\ (graceEnd <= now -> ValidationResult.IsInGracePeriod result = false)
  /\ (0 <= 7 -> graceEnd <= now ->
      ValidationResult.ExpiryValid result = false
      /\ ValidationResult.IsInGracePeriod result = false).
Proof.
  assert (in_int64 (License.ExpiresAt fixture_license / time_Second
                    + License.GracePeriodDays fixture_license * 86400)) as Hfits
    by (vm_compute; split; discriminate).
  split; [exact Hfits |].
  exact (grace_period_window (fixture_exp + 3 * (24 * time_Hour)) fixture_license 5 "prod"
           ValidationResult.zero Hfits).
Defined.

(** C4 fails as stated: with a grace period of minus one day, one hour before
    the expiry is past [graceEnd], yet the expiry check holds. *)
Lemma negative_grace_period_expiry_still_valid :
  let now := fixture_exp - time_Hour in
  let result :=
    @Validate fixture fixture_validator 0 (fixture_exp - time_Hour) now
      "{alg:RS512}.{nodes:5,grace:-1}.K#30" 3 "prod" in
  (License.ExpiresAt <$> ValidationResult.License result) = Some fixture_exp
  /\ (License.GracePeriodDays <$> ValidationResult.License result) = Some (-1)
  /\ fixture_exp + (-1) * (24 * time_Hour) <= now
  /\ ValidationResult.ExpiryValid result = true
  /\ ValidationResult.IsInGracePeriod result = false.
Proof. vm_compute. repeat split; discriminate. Qed.

(** ** The namespace binding *)

Lemma append_assoc (s1 s2 s3 : string) : (s1 +:+ s2) +:+ s3 = s1 +:+ (s2 +:+ s3).
Proof.
  induction s1 as [| c s1 IH]; [reflexivity |].
  change (String c ((s1 +:+ s2) +:+ s3) = String c (s1 +:+ s2 +:+ s3)).
  by rewrite IH.
Qed.

Lemma names_infix (a s b : string) : names (a +:+ s +:+ b) s.
Proof. unfold names. by exists a, b. Qed.

Lemma names_second_infix (a s1 b s c : string) : names (a +:+ s1 +:+ b +:+ s +:+ c) s.
Proof. unfold names. exists (a +:+ s1 +:+ b), c. by rewrite !append_assoc. Qed.

(** The mismatch error names the license's namespace and the observed one. *)
Lemma namespace_mismatch_names licenseNamespace actualNamespace :
  names (Error (namespace_mismatch licenseNamespace actualNamespace)) licenseNamespace
  /\ names (Error (namespace_mismatch licenseNamespace actualNamespace)) actualNamespace.
Proof.
  unfold namespace_mismatch. cbn [Error].
  split; [apply names_infix | apply names_second_infix].
Qed.

(** C5. Whenever [Validate] decodes a license whose namespace is not, byte
    for byte, the observed one, the verdict is invalid whatever the other
    sub-checks say, and the result carries the mismatch error, whose text
    names the license's namespace and the observed namespace. *)
Theorem namespace_mismatch_forces_invalid `{jwt_Primitives}
    (v : Validator) (t_start t_parse t_check : time_Time)
    (licenseJWT : string) (actualNodeCount : Z) (actualNamespace : string)
    (license : License.t) :
  let result := Validate v t_start t_parse t_check licenseJWT actualNodeCount actualNamespace in
  ValidationResult.License result = Some license ->
  actualNamespace <> License.Namespace license ->
  ValidationResult.Valid result = false
  /\ ValidationResult.NamespaceValid result = false
  /\ exists err,
       ValidationResult.Error result = Some err
       /\ err = namespace_mismatch (License.Namespace license) actualNamespace
       /\ names (Error err) (License.Namespace license)
       /\ names (Error err) actualNamespace.
Proof.
  intros result Hlicense Hdiffer. subst result.
  destruct (Validate_License_inv _ _ _ _ _ _ _ _ Hlicense) as (token & _ & _ & ->).
  apply String.eqb_neq in Hdiffer.
  rewrite checks_Valid, checks_NamespaceValid, checks_Error, Hdiffer, andb_false_r.
  repeat split. eexists. split; [done |]. split; [done |].
  apply namespace_mismatch_names.
Qed.

Lemma namespace_mismatch_forces_invalid_witness :
  let result :=
    @Validate fixture fixture_validator 0 (fixture_exp - 2) (fixture_exp - 1)
      "{alg:RS512}.{nodes:5,grace:7}.K#29" 3 "Prod" in
  ValidationResult.License result = Some fixture_license
  /\ "Prod" <> License.Namespace fixture_license
  /\ ValidationResult.SignatureValid result = true
  /\ ValidationResult.ExpiryValid result = true
  /\ ValidationResult.NodeCountValid result = true
  /\ ValidationResult.Valid result = false
  /\ ValidationResult.NamespaceValid result = false
  /\ exists err,
       ValidationResult.Error result = Some err
       /\ err = namespace_mismatch (License.Namespace fixture_license) "Prod"
       /\ names (Error err) (License.Namespace fixture_license)
       /\ names (Error err) "Prod".
Proof.
  assert (ValidationResult.License
            (@Validate fixture fixture_validator 0 (fixture_exp - 2) (fixture_exp - 1)
               "{alg:RS512}.{nodes:5,grace:7}.K#29" 3 "Prod") = Some fixture_license) as Hlicense
    by (vm_compute; reflexivity).
  assert ("Prod" <> License.Namespace fixture_license) as Hdiffer
    by (vm_compute; discriminate).
  split; [exact Hlicense |]. split; [exact Hdiffer |].
  split; [vm_compute; reflexivity |]. split; [vm_compute; reflexivity |].
  split; [vm_compute; reflexivity |].
  exact (@namespace_mismatch_forces_invalid fixture fixture_validator 0 (fixture_exp - 2)
           (fixture_exp - 1) "{alg:RS512}.{nodes:5,grace:7}.K#29" 3 "Prod" fixture_license
           Hlicense Hdiffer).
Defined.

(** ** Status and message classification *)

(** C6. The status is the answer of the first rule that matches, in the
    order: valid, in grace period, expiry check failed, node count check
    failed, signature check failed, and "invalid" when none does.  So a
    result that is not valid, in its grace period and over its node limit
    at once is classified "grace_period". *)
Theorem status_follows_precedence (result : ValidationResult.t) :
  getValidationStatus result = first_matching status_rules "invalid" result
  /\ (ValidationResult.Valid result = false ->
      ValidationResult.IsInGracePeriod result = true ->
      ValidationResult.NodeCountValid result = false ->
      getValidationStatus result = "grace_period").
Proof.
  split.
  - unfold getValidationStatus. cbn.
    by repeat match goal with |- context [if ?b then _ else _] => destruct b end.
  - unfold getValidationStatus. by intros -> -> _.
Qed.

(** C7, as the code has it. The message follows the precedence: valid, an
    attached error, grace period, expired, node limit, signature, and the
    generic failure text when none matches.  A result that is not valid and
    carries an error gets that error's text whatever its other fields; with
    no error attached, the node-limit message carries the observed and the
    licensed node counts. *)
Theorem message_follows_precedence (result : ValidationResult.t) :
  getValidationMessage result
  = first_matching message_rules (fun _ => "License validation failed") result result
  /\ (forall err,
        ValidationResult.Valid result = false ->
        ValidationResult.Error result = Some err ->
        getValidationMessage result = Error err)
  /\ (ValidationResult.Valid result = false ->
      ValidationResult.Error result = None ->
      ValidationResult.IsInGracePeriod result = false ->
      ValidationResult.ExpiryValid result = true ->
      ValidationResult.NodeCountValid result = false ->
      getValidationMessage result
      = "Node count (" +:+ fmt_d (ValidationResult.NodeCount result)
        +:+ ") exceeds licensed nodes (" +:+ fmt_d (ValidationResult.LicensedNodes result) +:+ ")").
Proof.
  repeat split.
  - unfold getValidationMessage, message_rules, first_matching. cbv beta.
    destruct (ValidationResult.Valid result); [done |].
    destruct (ValidationResult.Error result) as [err |] eqn:Herror.
    + rewrite bool_decide_true by (by eexists). by rewrite Herror.
    + rewrite bool_decide_false by (by intros [? ?]).
      by repeat match goal with |- context [if ?b then _ else _] => destruct b end.
  - unfold getValidationMessage. by intros err -> ->.
  - unfold getValidationMessage. by intros -> -> -> -> ->.
Qed.

(** C7 fails as stated: a result in its grace period whose namespace does
    not match is classified "grace_period", yet its message is the text of
    the attached error, not the grace-period message. *)
Lemma grace_period_message_yields_to_error :
  let result :=
    @Validate fixture fixture_validator 0 (fixture_exp - 1) (fixture_exp + 1)
      "{alg:RS512}.{nodes:5,grace:7}.K#29" 5 "Prod" in
  ValidationResult.Valid result = false
  /\ ValidationResult.IsInGracePeriod result = true
  /\ getValidationStatus result = "grace_period"
  /\ is_Some (ValidationResult.Error result)
  /\ getValidationMessage result
     = "namespace mismatch: license is for namespace 'prod' but validator is running in 'Prod'"
  /\ grace_message result
     = "License expired but in grace period (0 days until grace period ends)"
  /\ getValidationMessage result <> grace_message result.
Proof.
  intros result.
  split; [vm_compute; reflexivity |]. split; [vm_compute; reflexivity |].
  split; [vm_compute; reflexivity |]. split; [vm_compute; by eexists |].
  split; [vm_compute; reflexivity |]. split; [vm_compute; reflexivity |].
  vm_compute. discriminate.
Qed.

(** ** The retry loop *)

Lemma backoff_of_square attempt :
  0 <= attempt <= max_backoff_attempt ->
  backoff_of attempt = attempt * attempt * time_Second.
Proof.
  unfold max_backoff_attempt, backoff_of, time_Second. intros Hrange.
  assert (0 <= attempt * attempt <= 96038 * 96038) as Hsquare by nia.
  rewrite (wrap64_id (attempt * attempt)) by (unfold in_int64, min_int64, max_int64; lia).
  apply wrap64_id. unfold in_int64, min_int64, max_int64. lia.
Qed.

Lemma tries_retry_rounds n attempt : tries (retry_rounds n attempt) = seqZ attempt (Z.of_nat n).
Proof.
  revert attempt. induction n as [| n IH]; intros attempt; [done |].
  rewrite seqZ_cons by lia. cbn. rewrite IH. f_equal. f_equal; lia.
Qed.

Lemma waits_retry_rounds n attempt :
  waits (retry_rounds n attempt)
  = (fun k => k * k * time_Second) <$> seqZ attempt (Z.of_nat n).
Proof.
  revert attempt. induction n as [| n IH]; intros attempt; [done |].
  rewrite seqZ_cons by lia. cbn. rewrite IH. do 3 f_equal; lia.
Qed.

Lemma tries_Sent attempt trace : tries (Sent attempt :: trace) = attempt :: tries trace.
Proof. done. Qed.

Lemma tries_app trace1 trace2 : tries (trace1 ++ trace2) = tries trace1 ++ tries trace2.
Proof. apply omap_app. Qed.

Section Loop.
Variables (c : Client) (env : Delivery) (req : PhoneHomeRequest.t).
Hypothesis Hfails : always_fails env.
Hypothesis Hbound : retries c <= max_backoff_attempt.

(** Every try fails and every wait completes: the loop runs to the end. *)
Lemma send_with_retries_exhausts :
  (forall attempt, ctx_Done env attempt = None) ->
  forall (n : nat) (attempt : Z) (lastErr : option error) (fuel : nat),
    1 <= attempt ->
    attempt + Z.of_nat n = retries c + 1 ->
    (n < fuel)%nat ->
    send_with_retries fuel c env req attempt lastErr
    = Some (retry_rounds n attempt,
            Some (retries_exhausted c
                    match n with
                    | O => lastErr
                    | S _ => sendRequest (transport env (retries c) (validate_url c) req)
                    end)).
Proof.
  intros Hwaits. induction n as [| n IH]; intros attempt lastErr fuel Hpos Hcount Hfuel;
    (destruct fuel as [| fuel]; [lia |]); cbn [send_with_retries].
  - by rewrite (proj2 (Z.leb_gt _ _)) by lia.
  - rewrite (proj2 (Z.leb_le _ _)) by lia.
    rewrite (proj2 (Z.ltb_lt _ _)) by lia.
    rewrite Hwaits.
    destruct (Hfails attempt (validate_url c) req) as [err Herr].
    unfold validate_url in *. rewrite Herr.
    rewrite wrap64_id by (unfold in_int64, min_int64, max_int64, max_backoff_attempt in *; lia).
    rewrite (IH (attempt + 1) (Some err) fuel) by lia.
    cbn. rewrite backoff_of_square by lia.
    do 4 f_equal. destruct n as [| n]; [| done].
    rewrite <- Herr. do 3 f_equal. lia.
Qed.

(** Every try fails and the context is done during the wait before retry
    [k]: the loop returns there. *)
Lemma send_with_retries_interrupted (k : Z) (reason : error) :
  k <= retries c ->
  ctx_Done env k = Some reason ->
  (forall j, 1 <= j < k -> ctx_Done env j = None) ->
  forall (n : nat) (attempt : Z) (lastErr : option error) (fuel : nat),
    1 <= attempt ->
    attempt + Z.of_nat n = k ->
    (n < fuel)%nat ->
    send_with_retries fuel c env req attempt lastErr
    = Some (retry_rounds n attempt ++ [Interrupted (k * k * time_Second)], Some reason).
Proof.
  intros Hk Hdone Hwaits.
  induction n as [| n IH]; intros attempt lastErr fuel Hpos Hcount Hfuel;
    (destruct fuel as [| fuel]; [lia |]); cbn [send_with_retries].
  - assert (attempt = k) as -> by lia.
    rewrite (proj2 (Z.leb_le _ _)) by lia.
    rewrite (proj2 (Z.ltb_lt _ _)) by lia.
    rewrite Hdone. by rewrite backoff_of_square by lia.
  - rewrite (proj2 (Z.leb_le _ _)) by lia.
    rewrite (proj2 (Z.ltb_lt _ _)) by lia.
    rewrite Hwaits by lia.
    destruct (Hfails attempt (serverURL c +:+ "/api/v1/validate") req) as [err ->].
    rewrite wrap64_id by (unfold in_int64, min_int64, max_int64, max_backoff_attempt in *; lia).
    rewrite (IH (attempt + 1) (Some err) fuel) by lia.
    cbn. by rewrite backoff_of_square by lia.
Qed.

End Loop.

(** C8, as the code has it. For a retry count from 0 to 96038 (the range in
    which the square of the attempt number, in seconds, fits a 64-bit
    duration) and a delivery that fails on every try, given fuel for every
    evaluation of the loop condition: when every wait completes, the reporter
    makes exactly [retries + 1] tries, with no wait before the first and a
    wait of [attempt] squared seconds before retry [attempt], and returns the
    error formatted "phone home failed after N retries: ...", which wraps the
    failure of the last try; when the context is done during the wait before
    retry [k], it returns the context's error at once, after [k] tries. *)
Theorem phone_home_retry_schedule (c : Client) (env : Delivery) (now : time_Time)
    (result : ValidationResult.t) (lic : License.t) (fuel : nat) :
  let req := prepare_request now result lic in
  ValidationResult.License result = Some lic ->
  0 <= retries c <= max_backoff_attempt ->
  always_fails env ->
  (Z.to_nat (retries c) + 2 <= fuel)%nat ->
  ((forall attempt, ctx_Done env attempt = None) ->
   exists trace last,
     SendPhoneHome fuel c env now (Some result)
     = Some (trace, Some (retries_exhausted c (Some last)))
     /\ sendRequest (transport env (retries c) (validate_url c) req) = Some last
     /\ Unwrap (retries_exhausted c (Some last)) = [last]
     /\ trace = Sent 0 :: retry_rounds (Z.to_nat (retries c)) 1
     /\ tries trace = seqZ 0 (retries c + 1)
     /\ Z.of_nat (length (tries trace)) = retries c + 1
     /\ waits trace = (fun attempt => attempt * attempt * time_Second) <$> seqZ 1 (retries c))
  /\ (forall k reason,
        1 <= k <= retries c ->
        ctx_Done env k = Some reason ->
        (forall j, 1 <= j < k -> ctx_Done env j = None) ->
        exists trace,
          SendPhoneHome fuel c env now (Some result) = Some (trace, Some reason)
          /\ trace
             = Sent 0 :: retry_rounds (Z.to_nat (k - 1)) 1 ++ [Interrupted (k * k * time_Second)]
          /\ tries trace = seqZ 0 k).
Proof.
  intros req Hlicense [Hmin Hmax] Hfails Hfuel.
  destruct fuel as [| fuel]; [lia |].
  assert (SendPhoneHome (S fuel) c env now (Some result)
          = send_with_retries (S fuel) c env req 0 None) as ->.
  { unfold SendPhoneHome. cbn. by rewrite Hlicense. }
  cbn [send_with_retries].
  rewrite (proj2 (Z.leb_le _ _)) by lia. rewrite Z.ltb_irrefl.
  destruct (Hfails 0 (validate_url c) req) as [first Hfirst].
  unfold validate_url in Hfirst. rewrite Hfirst.
  change (wrap64 (0 + 1)) with 1. split.
  - intros Hwaits.
    rewrite (send_with_retries_exhausts c env req Hfails Hmax Hwaits
               (Z.to_nat (retries c)) 1 (Some first) fuel) by lia.
    cbn.
    assert (exists last,
              match Z.to_nat (retries c) with
              | O => Some first
              | S _ => sendRequest (transport env (retries c) (validate_url c) req)
              end = Some last
              /\ sendRequest (transport env (retries c) (validate_url c) req) = Some last)
      as (last & -> & Hlast).
    { destruct (Z.to_nat (retries c)) eqn:Hzero.
      - assert (retries c = 0) as -> by lia. by exists first.
      - destruct (Hfails (retries c) (validate_url c) req) as [last Hlast]. by exists last. }
    eexists _, last. split; [done |]. split; [done |]. split; [done |]. split; [done |].
    assert (tries (Sent 0 :: retry_rounds (Z.to_nat (retries c)) 1) = seqZ 0 (retries c + 1))
      as Htries.
    { rewrite (seqZ_cons 0 (retries c + 1)) by lia. cbn. rewrite tries_retry_rounds.
      do 2 f_equal; lia. }
    split; [done |]. split.
    + rewrite Htries, length_seqZ. lia.
    + cbn. rewrite waits_retry_rounds. do 2 f_equal. lia.
  - intros k reason Hk Hdone Hwaits.
    rewrite (send_with_retries_interrupted c env req Hfails Hmax k reason (proj2 Hk) Hdone Hwaits
               (Z.to_nat (k - 1)) 1 (Some first) fuel) by lia.
    eexists. split; [done |]. rewrite app_nil_l. split; [done |].
    rewrite tries_Sent, tries_app, tries_retry_rounds. cbn [tries omap list_omap].
    rewrite app_nil_r, (seqZ_cons 0 k) by lia. do 2 f_equal; lia.
Qed.

Lemma phone_home_retry_schedule_witness :
  let c := NewClient "https://license.example" (30 * time_Second) 3 in
  (ValidationResult.License fixture_result = Some fixture_license
   /\ 0 <= retries c <= max_backoff_attempt
   /\ always_fails unavailable_server
   /\ always_fails unavailable_server_cancelled
   /\ (Z.to_nat (retries c) + 2 <= 5)%nat)
  /\ (exists trace last,
        SendPhoneHome 5 c unavailable_server 0 (Some fixture_result)
        = Some (trace, Some (retries_exhausted c (Some last)))
        /\ trace = [Sent 0; Waited (1 * time_Second); Sent 1; Waited (4 * time_Second);
                    Sent 2; Waited (9 * time_Second); Sent 3]
        /\ Z.of_nat (length (tries trace)) = 4
        /\ Error (retries_exhausted c (Some last))
           = "phone home failed after 3 retries: server returned error status: 503")
  /\ (exists trace,
        SendPhoneHome 5 c unavailable_server_cancelled 0 (Some fixture_result)
        = Some (trace, Some (errorString "context canceled"))
        /\ trace = [Sent 0; Waited (1 * time_Second); Sent 1; Interrupted (4 * time_Second)]
        /\ tries trace = [0; 1]).
Proof.
  intros c.
  assert (ValidationResult.License fixture_result = Some fixture_license) as Hlicense
    by (vm_compute; reflexivity).
  assert (0 <= retries c <= max_backoff_attempt) as Hrange by (vm_compute; split; discriminate).
  assert (always_fails unavailable_server) as Hfails by (intros attempt url req; by eexists).
  assert (always_fails unavailable_server_cancelled) as Hfails' by (intros attempt url req; by eexists).
  assert (Z.to_nat (retries c) + 2 <= 5)%nat as Hfuel by (vm_compute; lia).
  split; [exact (conj Hlicense (conj Hrange (conj Hfails (conj Hfails' Hfuel)))) |]. split.
  - destruct (proj1 (phone_home_retry_schedule c unavailable_server 0 fixture_result
                       fixture_license 5 Hlicense Hrange Hfails Hfuel) (fun _ => eq_refl))
      as (trace & last & Hsend & Hlast & _ & Htrace & _ & Hcount & _).
    exists trace, last. split; [exact Hsend |]. split; [exact Htrace |]. split; [exact Hcount |].
    injection Hlast as <-. reflexivity.
  - destruct (proj2 (phone_home_retry_schedule c unavailable_server_cancelled 0 fixture_result
                       fixture_license 5 Hlicense Hrange Hfails' Hfuel)
                2 (errorString "context canceled") ltac:(vm_compute; split; discriminate) eq_refl)
      as (trace & Hsend & Htrace & Htries).
    { intros j Hj. assert (j = 1) as -> by lia. reflexivity. }
    exists trace. split; [exact Hsend |]. split; [exact Htrace |]. exact Htries.
Defined.

(** The backoff before retry 96039 no longer fits: the duration wraps to a
    negative one, which [time.After] does not wait for. *)
Lemma backoff_of_overflows : backoff_of (max_backoff_attempt + 1) = -9223254552709551616.
Proof. reflexivity. Qed.

(** C8 fails as stated: with a retry count of -2 the reporter makes no try
    at all, not [retries + 1] of them, and the error it returns wraps no
    failure; and from retry 96039 on the wait is not the attempt squared in
    seconds. *)
Lemma negative_retry_count_makes_no_try :
  let c := NewClient "https://license.example" (30 * time_Second) (-2) in
  always_fails unavailable_server
  /\ (exists trace err,
        SendPhoneHome 5 c unavailable_server 0 (Some fixture_result) = Some (trace, Some err)
        /\ tries trace = []
        /\ Z.of_nat (length (tries trace)) <> retries c + 1
        /\ Error err = "phone home failed after -2 retries: %!w(<nil>)"
        /\ Unwrap err = [])
  /\ backoff_of 96039 < 0
  /\ backoff_of 96039 <> 96039 * 96039 * time_Second.
Proof.
  split; [intros attempt url req; by eexists |]. split.
  - eexists _, _. split; [vm_compute; reflexivity |]. by vm_compute.
  - by vm_compute.
Qed.

(** ** Decoding the claims *)

(** C9, as the code has it. [parseLicense] never fails.  A claim that is
    absent, or present with another dynamic type than the one its assertion
    expects (then [as_string], [as_float64], ... give [None]), leaves its
    field of the license at the zero value: the empty string for each of the
    twelve string fields, the zero time for the three timestamps, 0 for the
    four integers (a [licensed_nodes] that is not a number gives 0 licensed
    nodes), nil for the node selector and the features, and the zero
    phone-home configuration, also field by field inside a [phone_home]
    object.  So every token the parser accepts yields this license, and the
    only error the result can carry is the namespace mismatch. *)
Theorem ill_typed_claims_are_zero_valued `{jwt_Primitives}
    (v : Validator) (t_start t_parse t_check : time_Time)
    (licenseJWT : string) (actualNodeCount : Z) (actualNamespace : string)
    (claims : gmap string json_value) :
  (parseLicense claims).2 = None
  /\ (forall key field, (key, field) ∈ string_claims ->
      as_string (claims !! key) = None -> field (parseLicense claims).1 = "")
  /\ (forall key field, (key, field) ∈ time_claims ->
      as_float64 (claims !! key) = None -> field (parseLicense claims).1 = time_zero)
  /\ (forall key field, (key, field) ∈ int_claims ->
      as_float64 (claims !! key) = None -> field (parseLicense claims).1 = 0)
  /\ (as_map (claims !! "node_selector") = None ->
      License.NodeSelector (parseLicense claims).1 = None)
  /\ (as_slice (claims !! "features") = None ->
      License.Features (parseLicense claims).1 = None)
  /\ (as_map (claims !! "phone_home") = None ->
      License.PhoneHomeConfig (parseLicense claims).1 = PhoneHomeConfig.zero)
  /\ (forall phoneHome,
        claims !! "phone_home" = Some (JObject phoneHome) ->
        let config := License.PhoneHomeConfig (parseLicense claims).1 in
        (as_bool (phoneHome !! "enabled") = None -> PhoneHomeConfig.Enabled config = false)
        /\ (as_string (phoneHome !! "url") = None -> PhoneHomeConfig.URL config = "")
        /\ (as_float64 (phoneHome !! "interval_hours") = None ->
            PhoneHomeConfig.IntervalHours config = 0))
  /\ (forall token,
        jwt_ParseWithClaims t_parse licenseJWT (keyFunc v) = inr token ->
        let result := Validate v t_start t_parse t_check licenseJWT actualNodeCount actualNamespace in
        let license := (parseLicense (jwt_Token.Claims token)).1 in
        ValidationResult.License result = Some license
        /\ (ValidationResult.Error result = None
            \/ ValidationResult.Error result
               = Some (namespace_mismatch (License.Namespace license) actualNamespace))).
Proof.
  split; [done |]. repeat apply conj.
  - intros key field Hin. unfold string_claims in Hin.
    repeat (apply elem_of_cons in Hin as [[= -> ->] | Hin];
            [cbn; unfold claim_string; by intros -> |]).
    by apply elem_of_nil in Hin.
  - intros key field Hin. unfold time_claims in Hin.
    repeat (apply elem_of_cons in Hin as [[= -> ->] | Hin];
            [cbn; unfold claim_time; by intros -> |]).
    by apply elem_of_nil in Hin.
  - intros key field Hin. unfold int_claims in Hin.
    repeat (apply elem_of_cons in Hin as [[= -> ->] | Hin];
            [cbn; unfold claim_int; by intros -> |]).
    by apply elem_of_nil in Hin.
  - cbn. unfold parse_node_selector. by intros ->.
  - cbn. unfold parse_features. by intros ->.
  - cbn. unfold parse_phone_home. by intros ->.
  - intros phoneHome Hclaim. cbn. unfold parse_phone_home. rewrite Hclaim. cbn.
    unfold claim_bool, claim_string, claim_int.
    split; [by intros -> |]. split; by intros ->.
  - intros token Hparse result license. subst result license.
    rewrite (Validate_parsed _ _ _ _ _ _ _ token Hparse), checks_License, checks_Error.
    split; [done |]. destruct (String.eqb _ _); [by left | by right].
Qed.

(** C9 fails as stated: a token that verifies and whose [licensed_nodes] is
    the string "five" yields a license, with 0 licensed nodes, and no
    error. *)
Lemma non_numeric_node_count_is_accepted :
  let result :=
    @Validate fixture fixture_validator 0 (fixture_exp - 2) (fixture_exp - 1)
      "{alg:RS512}.{nodes:five,grace:7}.K#32" 0 "prod" in
  (@json_Unmarshal fixture "{nodes:five,grace:7}" ≫= fun claims => inr (claims !! "licensed_nodes"))
  = inr (Some (JString "five"))
  /\ is_Some (ValidationResult.License result)
  /\ (License.LicensedNodes <$> ValidationResult.License result) = Some 0
  /\ ValidationResult.Error result = None
  /\ ValidationResult.Valid result = true.
Proof.
  intros result.
  split; [vm_compute; reflexivity |].
  split; [vm_compute; by eexists |]. split; [vm_compute; reflexivity |].
  split; vm_compute; reflexivity.
Qed.

(** ** A node-counting outage *)

(** C10. When counting the labeled nodes fails in a cycle that has read the
    license, [runValidation] goes on with a node count of 0: the stored
    result is the one of [Validate] on 0 nodes, and its node-count check
    holds for every decoded license whose licensed node count is not
    negative. *)
Theorem node_count_outage_passes_capacity `{jwt_Primitives}
    (s : ValidatorService) (w : Cycle) (err : error)
    (Data : gmap string string) (licenseJWT : string) :
  let result :=
    Validate (validator s) (now_start w) (now_parse w) (now_check w)
      licenseJWT 0 (Config.LicenseSecretNamespace (cfg s)) in
  secret_Get w = inr Data ->
  Data !! Config.LicenseSecretKey (cfg s) = Some licenseJWT ->
  nodes_List w = inl err ->
  currentResult (runValidation s w).1 = Some result
  /\ ValidationResult.NodeCount result = 0
  /\ (forall license,
        ValidationResult.License result = Some license ->
        0 <= License.LicensedNodes license ->
        ValidationResult.NodeCountValid result = true).
Proof.
  intros result Hsecret Hkey Hlist. split; [| split].
  - unfold runValidation. rewrite Hsecret, Hkey, Hlist. cbn.
    by destruct (_ && _).
  - apply Validate_NodeCount.
  - intros license Hlicense Hnodes.
    destruct (Validate_License_inv _ _ _ _ _ _ _ _ Hlicense) as (token & _ & _ & Hchecks).
    subst result. rewrite Hchecks, checks_NodeCountValid. by apply Z.leb_le.
Qed.

Lemma node_count_outage_passes_capacity_witness :
  let result :=
    @Validate fixture fixture_validator (fixture_exp - 3) (fixture_exp - 2) (fixture_exp - 1)
      "{alg:RS512}.{nodes:5,grace:7}.K#29" 0 "prod" in
  (secret_Get outage_cycle = inr {["license.jwt" := "{alg:RS512}.{nodes:5,grace:7}.K#29"]}
   /\ ({["license.jwt" := "{alg:RS512}.{nodes:5,grace:7}.K#29"]} : gmap string string)
        !! Config.LicenseSecretKey fixture_config
      = Some "{alg:RS512}.{nodes:5,grace:7}.K#29"
   /\ nodes_List outage_cycle = inl (errorString "connection refused"))
  /\ @currentResult fixture (@runValidation fixture fixture_service outage_cycle).1 = Some result
  /\ ValidationResult.NodeCount result = 0
  /\ ValidationResult.License result = Some fixture_license
  /\ ValidationResult.NodeCountValid result = true.
Proof.
  intros result.
  assert (secret_Get outage_cycle
          = inr {["license.jwt" := "{alg:RS512}.{nodes:5,grace:7}.K#29"]}) as Hsecret
    by reflexivity.
  assert (({["license.jwt" := "{alg:RS512}.{nodes:5,grace:7}.K#29"]} : gmap string string)
            !! Config.LicenseSecretKey fixture_config
          = Some "{alg:RS512}.{nodes:5,grace:7}.K#29") as Hkey
    by (vm_compute; reflexivity).
  assert (nodes_List outage_cycle = inl (errorString "connection refused")) as Hlist
    by reflexivity.
  assert (ValidationResult.License result = Some fixture_license) as Hlicense
    by (vm_compute; reflexivity).
  destruct (@node_count_outage_passes_capacity fixture fixture_service outage_cycle
              (errorString "connection refused") _ _ Hsecret Hkey Hlist)
    as (Hstored & Hcount & Hcapacity).
  split; [exact (conj Hsecret (conj Hkey Hlist)) |].
  split; [exact Hstored |]. split; [exact Hcount |]. split; [exact Hlicense |].
  apply (Hcapacity fixture_license Hlicense). vm_compute. discriminate.
Defined.

(** ** The signing algorithm *)


Section Algorithm.
Context `{jwt_Primitives}.
Variables (v : Validator) (now : time_Time) (tokenString : string).




End Algorithm.




(** * Further properties of the code *)

(** ** The license read from the claims *)

(** X1. [parseLicense] reads the twenty-two claims of [license_claims]
    and nothing else: claim sets that agree on them give the same license
    and the same error. *)
Theorem parseLicense_reads_known_claims_only (claims1 claims2 : gmap string json_value) :
  (forall key, key ∈ license_claims -> claims1 !! key = claims2 !! key) ->
  parseLicense claims1 = parseLicense claims2.
Proof.
  intros Hsame.
  assert (Forall (fun key => claims1 !! key = claims2 !! key) license_claims) as Hall
    by (apply Forall_forall; exact Hsame).
  unfold license_claims in Hall.
  repeat match type of Hall with
         | Forall _ (_ :: _) => apply Forall_cons in Hall as [? Hall]
         end.
  unfold parseLicense, claim_string, claim_int, claim_time, parse_node_selector,
    parse_features, parse_phone_home.
  repeat match goal with Heq : claims1 !! _ = _ |- _ => rewrite Heq; clear Heq end.
  reflexivity.
Qed.

Lemma parseLicense_reads_known_claims_only_witness :
  (forall key, key ∈ license_claims ->
     fixture_claims (JNumber 5) 7 !! key
     = (<["aud" := JString "es-products"]> (fixture_claims (JNumber 5) 7)) !! key)
  /\ parseLicense (fixture_claims (JNumber 5) 7)
     = parseLicense (<["aud" := JString "es-products"]> (fixture_claims (JNumber 5) 7)).
Proof.
  assert (forall key, key ∈ license_claims ->
            fixture_claims (JNumber 5) 7 !! key
            = (<["aud" := JString "es-products"]> (fixture_claims (JNumber 5) 7)) !! key)
    as Hsame.
  { intros key Hin. rewrite lookup_insert_ne; [reflexivity |]. intros <-.
    unfold license_claims in Hin.
    repeat (apply elem_of_cons in Hin as [Hin | Hin]; [discriminate Hin |]).
    by apply elem_of_nil in Hin. }
  exact (conj Hsame (parseLicense_reads_known_claims_only _ _ Hsame)).
Defined.

(** The string elements, wrapped again, are the elements that are strings. *)
Lemma string_elements_filter (elements : list json_value) :
  JString <$> omap (fun f => as_string (Some f)) elements = List.filter is_JString elements.
Proof.
  induction elements as [| x elements IH]; [done |].
  destruct x; cbn; try exact IH. f_equal. exact IH.
Qed.

Lemma string_elements_all (elements : list json_value) :
  Forall (fun x => exists s, x = JString s) elements ->
  JString <$> omap (fun f => as_string (Some f)) elements = elements.
Proof. induction 1 as [| x elements' [s ->] _ IH]; [done |]. cbn. f_equal. exact IH. Qed.

(** X2. When the claim [features] is an array, the license's features are
    its string elements, in their order and with their repetitions: wrapped
    again as JSON strings they are the array filtered to its strings.  The
    elements of other types are dropped without an error, and an array of
    strings is kept whole. *)
Theorem features_are_the_string_elements (claims : gmap string json_value)
    (elements : list json_value) :
  claims !! "features" = Some (JArray elements) ->
  exists features,
    License.Features (parseLicense claims).1 = Some features
    /\ JString <$> features = List.filter is_JString elements
    /\ (forall s, s ∈ features <-> JString s ∈ elements)
    /\ (Forall (fun x => exists s, x = JString s) elements -> JString <$> features = elements)
    /\ (parseLicense claims).2 = None.
Proof.
  intros Hclaim. eexists. split.
  { cbn. unfold parse_features. rewrite Hclaim. reflexivity. }
  split; [apply string_elements_filter |]. split; [| split; [| done]].
  - intros s. rewrite list_elem_of_omap. split.
    + intros (x & Hin & Hx). destruct x; try discriminate. by injection Hx as ->.
    + intros Hin. by exists (JString s).
  - apply string_elements_all.
Qed.

Lemma features_are_the_string_elements_witness :
  (mixed_claims !! "features" = Some (JArray mixed_features)
   /\ mixed_features
      = [JString "sso"; JString "sso"; JNumber 1; JString "audit"; JNull; JString "sso"]
   /\ License.Features (parseLicense mixed_claims).1 = Some ["sso"; "sso"; "audit"; "sso"])
  /\ exists features,
       License.Features (parseLicense mixed_claims).1 = Some features
       /\ JString <$> features = List.filter is_JString mixed_features
       /\ (forall s, s ∈ features <-> JString s ∈ mixed_features)
       /\ (Forall (fun x => exists s, x = JString s) mixed_features ->
           JString <$> features = mixed_features)
       /\ (parseLicense mixed_claims).2 = None.
Proof.
  assert (mixed_claims !! "features" = Some (JArray mixed_features)) as Hclaim
    by (vm_compute; reflexivity).
  assert (License.Features (parseLicense mixed_claims).1 = Some ["sso"; "sso"; "audit"; "sso"])
    as Hrun by (vm_compute; reflexivity).
  exact (conj (conj Hclaim (conj eq_refl Hrun))
           (features_are_the_string_elements _ _ Hclaim)).
Defined.

(** X3. When the claim [node_selector] is an object, the license's
    selector holds exactly its entries whose value is a string; the keys of
    the other entries are absent from it. *)
Theorem node_selector_keeps_string_values (claims : gmap string json_value)
    (nodeSelector : gmap string json_value) :
  claims !! "node_selector" = Some (JObject nodeSelector) ->
  exists selector,
    License.NodeSelector (parseLicense claims).1 = Some selector
    /\ (forall key s, selector !! key = Some s <-> nodeSelector !! key = Some (JString s))
    /\ dom selector ⊆ dom nodeSelector.
Proof.
  intros Hclaim. eexists. split.
  { cbn. unfold parse_node_selector. rewrite Hclaim. reflexivity. }
  split.
  - intros key s. rewrite lookup_omap. destruct (nodeSelector !! key) as [[] |]; cbn; naive_solver.
  - intros key. rewrite !elem_of_dom, lookup_omap. intros [s Hs].
    destruct (nodeSelector !! key); [by eexists | done].
Qed.

Lemma node_selector_keeps_string_values_witness :
  mixed_claims !! "node_selector" = Some (JObject mixed_selector)
  /\ exists selector,
       License.NodeSelector (parseLicense mixed_claims).1 = Some selector
       /\ (forall key s, selector !! key = Some s <-> mixed_selector !! key = Some (JString s))
       /\ dom selector ⊆ dom mixed_selector.
Proof.
  assert (mixed_claims !! "node_selector" = Some (JObject mixed_selector)) as Hclaim
    by (vm_compute; reflexivity).
  exact (conj Hclaim (node_selector_keeps_string_values _ _ Hclaim)).
Defined.

(** X4. A license whose claim [exp] is missing or not a number expires at
    the zero time: at any check at or after it the expiry check fails, so
    such a license can be valid in its grace period only. *)
Theorem missing_exp_is_always_expired (claims : gmap string json_value) (now : time_Time)
    (actualNodeCount : Z) (actualNamespace : string) (incoming : ValidationResult.t) :
  let license := (parseLicense claims).1 in
  let result := Validate_checks now license actualNodeCount actualNamespace incoming in
  as_float64 (claims !! "exp") = None ->
  0 <= now ->
  License.ExpiresAt license = time_zero
  /\ ValidationResult.ExpiryValid result = false
  /\ (ValidationResult.Valid result = true -> ValidationResult.IsInGracePeriod result = true).
Proof.
  intros license result Hexp Hnow. subst result license.
  rewrite checks_ExpiryValid, checks_Valid, checks_IsInGracePeriod.
  cbn. unfold claim_time. rewrite Hexp. unfold time_zero, time_Before.
  rewrite (proj2 (Z.ltb_ge _ _)) by lia. split; [done |]. split; [done |].
  cbn. rewrite !andb_true_iff. tauto.
Qed.

Lemma missing_exp_is_always_expired_witness :
  let license := (parseLicense mixed_claims).1 in
  let result :=
    Validate_checks fixture_exp license 2 "prod" (parsed_result (fixture_exp - 1) 2 "prod") in
  (as_float64 (mixed_claims !! "exp") = None /\ 0 <= fixture_exp)
  /\ License.ExpiresAt license = time_zero
  /\ ValidationResult.ExpiryValid result = false
  /\ (ValidationResult.Valid result = true -> ValidationResult.IsInGracePeriod result = true).
Proof.
  intros license result.
  assert (as_float64 (mixed_claims !! "exp") = None) as Hexp by (vm_compute; reflexivity).
  assert (0 <= fixture_exp) as Hnow by (vm_compute; discriminate).
  exact (conj (conj Hexp Hnow)
           (missing_exp_is_always_expired mixed_claims fixture_exp 2 "prod"
              (parsed_result (fixture_exp - 1) 2 "prod") Hexp Hnow)).
Defined.

(** ** The verdict of [Validate] *)

Section ValidateMore.
Context `{jwt_Primitives}.
Variables (v : Validator) (t_start t_parse t_check : time_Time).
Variables (licenseJWT : string) (actualNodeCount : Z) (actualNamespace : string).

Local Abbreviation validated :=
  (Validate v t_start t_parse t_check licenseJWT actualNodeCount actualNamespace).

(** Either the parser rejected the token, or [Validate] ran the checks. *)
Lemma Validate_cases :
  (exists err,
     jwt_ParseWithClaims t_parse licenseJWT (keyFunc v) = inl err
     /\ validated
        = ValidationResult.set_Valid false
            (ValidationResult.set_Error (Some (Errorf_w "JWT validation failed: " (Some err)))
               (ValidationResult.set_SignatureValid false
                  (parsed_result t_start actualNodeCount actualNamespace))))
  \/ (exists token,
        jwt_ParseWithClaims t_parse licenseJWT (keyFunc v) = inr token
        /\ validated
           = Validate_checks t_check (parseLicense (jwt_Token.Claims token)).1
               actualNodeCount actualNamespace
               (parsed_result t_start actualNodeCount actualNamespace)).
Proof.
  destruct (jwt_ParseWithClaims t_parse licenseJWT (keyFunc v)) as [err | token] eqn:Hparse.
  - left. exists err. split; [done |]. unfold Validate. by rewrite Hparse.
  - right. exists token. split; [done |]. by apply Validate_parsed.
Qed.

End ValidateMore.

(** X5. A verdict [Valid] is backed by the license: the result carries a
    license and no error, the signature was verified, the namespace is the
    license's, the node count is within the licensed nodes, and the check
    ran strictly before the expiry or strictly between the expiry and the
    end of the grace period. *)
Theorem valid_verdict_is_backed `{jwt_Primitives}
    (v : Validator) (t_start t_parse t_check : time_Time)
    (licenseJWT : string) (actualNodeCount : Z) (actualNamespace : string) :
  let result := Validate v t_start t_parse t_check licenseJWT actualNodeCount actualNamespace in
  ValidationResult.Valid result = true ->
  exists license,
    ValidationResult.License result = Some license
    /\ ValidationResult.Error result = None
    /\ ValidationResult.SignatureValid result = true
    /\ actualNamespace = License.Namespace license
    /\ actualNodeCount <= License.LicensedNodes license
    /\ (t_check < License.ExpiresAt license
        \/ License.ExpiresAt license < t_check
             < time_AddDate_days (License.ExpiresAt license) (License.GracePeriodDays license)).
Proof.
  intros result Hvalid. subst result.
  destruct (Validate_cases v t_start t_parse t_check licenseJWT actualNodeCount actualNamespace)
    as [(err & _ & Heq) | (token & _ & Heq)]; rewrite Heq in Hvalid |- *; [done |].
  exists (parseLicense (jwt_Token.Claims token)).1.
  rewrite checks_Valid in Hvalid.
  rewrite checks_License, checks_Error, checks_SignatureValid.
  apply andb_true_iff in Hvalid as [Hvalid Hnamespace].
  apply andb_true_iff in Hvalid as [Hvalid Hnodes].
  apply andb_true_iff in Hvalid as [_ Htime].
  rewrite Hnamespace. apply String.eqb_eq in Hnamespace. apply Z.leb_le in Hnodes.
  repeat split; try done.
  apply orb_true_iff in Htime as [Hbefore | Hgrace].
  - left. by apply time_Before_lt.
  - right. apply andb_true_iff in Hgrace as [Hafter Hbefore].
    split; [by apply time_After_gt | by apply time_Before_lt].
Qed.

Lemma valid_verdict_is_backed_witness :
  let result :=
    @Validate fixture fixture_validator 0 (fixture_exp - 2) (fixture_exp - 1)
      "{alg:RS512}.{nodes:5,grace:7}.K#29" 3 "prod" in
  ValidationResult.Valid result = true
  /\ exists license,
       ValidationResult.License result = Some license
       /\ ValidationResult.Error result = None
       /\ ValidationResult.SignatureValid result = true
       /\ "prod" = License.Namespace license
       /\ 3 <= License.LicensedNodes license
       /\ (fixture_exp - 1 < License.ExpiresAt license
           \/ License.ExpiresAt license < fixture_exp - 1
                < time_AddDate_days (License.ExpiresAt license)
                    (License.GracePeriodDays license)).
Proof.
  intros result.
  assert (ValidationResult.Valid result = true) as Hvalid by (vm_compute; reflexivity).
  exact (conj Hvalid
           (@valid_verdict_is_backed fixture fixture_validator 0 (fixture_exp - 2)
              (fixture_exp - 1) "{alg:RS512}.{nodes:5,grace:7}.K#29" 3 "prod" Hvalid)).
Defined.

(** X6. Every result of [Validate] carries a license or an error.  Without
    an error it has a license, a verified signature and a matching
    namespace; without a license every check flag is false; and the node
    count, the namespace and the starting time given are recorded whatever
    the outcome. *)
Theorem result_has_license_or_error `{jwt_Primitives}
    (v : Validator) (t_start t_parse t_check : time_Time)
    (licenseJWT : string) (actualNodeCount : Z) (actualNamespace : string) :
  let result := Validate v t_start t_parse t_check licenseJWT actualNodeCount actualNamespace in
  (is_Some (ValidationResult.License result) \/ is_Some (ValidationResult.Error result))
  /\ (ValidationResult.Error result = None ->
      is_Some (ValidationResult.License result)
      /\ ValidationResult.NamespaceValid result = true
      /\ ValidationResult.SignatureValid result = true)
  /\ (ValidationResult.License result = None ->
      ValidationResult.Valid result = false
      /\ ValidationResult.SignatureValid result = false
      /\ ValidationResult.ExpiryValid result = false
      /\ ValidationResult.IsInGracePeriod result = false
      /\ ValidationResult.NodeCountValid result = false
      /\ ValidationResult.NamespaceValid result = false)
  /\ ValidationResult.NodeCount result = actualNodeCount
  /\ ValidationResult.ActualNamespace result = actualNamespace
  /\ ValidationResult.ValidationTime result = t_start.
Proof.
  intros result. subst result.
  destruct (Validate_cases v t_start t_parse t_check licenseJWT actualNodeCount actualNamespace)
    as [(err & _ & ->) | (token & _ & ->)].
  - cbn. repeat split; try done. right. by eexists.
  - rewrite checks_License, checks_Error, checks_NamespaceValid, checks_SignatureValid,
      checks_NodeCount.
    split; [left; by eexists |]. split.
    { destruct (String.eqb _ _); [| done]. intros _. repeat split. by eexists. }
    split; [done |]. split; [done |].
    unfold Validate_checks. cbn. by destruct (String.eqb _ _).
Qed.

(** X7. The expiry check and the grace period exclude each other: no
    result of the checks has both [ExpiryValid] and [IsInGracePeriod]. *)
Theorem expiry_and_grace_exclude_each_other (now : time_Time) (license : License.t)
    (actualNodeCount : Z) (actualNamespace : string) (incoming : ValidationResult.t) :
  let result := Validate_checks now license actualNodeCount actualNamespace incoming in
  ValidationResult.ExpiryValid result && ValidationResult.IsInGracePeriod result = false.
Proof.
  intros result. subst result. rewrite checks_ExpiryValid, checks_IsInGracePeriod.
  unfold time_Before, time_After.
  destruct (Z.ltb_spec now (License.ExpiresAt license)); [| done].
  by rewrite (proj2 (Z.ltb_ge _ _)) by lia.
Qed.

(** X8. The verdict is monotone in the node count: a token valid for a
    cluster of some size is valid, at the same instants and in the same
    namespace, for any smaller count, negative ones included. *)
Theorem fewer_nodes_stay_valid `{jwt_Primitives}
    (v : Validator) (t_start t_parse t_check : time_Time)
    (licenseJWT : string) (actualNamespace : string) (more fewer : Z) :
  ValidationResult.Valid
    (Validate v t_start t_parse t_check licenseJWT more actualNamespace) = true ->
  fewer <= more ->
  ValidationResult.Valid
    (Validate v t_start t_parse t_check licenseJWT fewer actualNamespace) = true.
Proof.
  intros Hvalid Hfewer.
  destruct (Validate_cases v t_start t_parse t_check licenseJWT more actualNamespace)
    as [(err & _ & Heq) | (token & Hparse & Heq)]; rewrite Heq in Hvalid; [done |].
  rewrite (Validate_parsed _ _ _ _ _ _ _ token Hparse).
  rewrite checks_Valid in Hvalid |- *.
  apply andb_true_iff in Hvalid as [Hvalid ->].
  apply andb_true_iff in Hvalid as [Hvalid Hnodes].
  apply andb_true_iff in Hvalid as [_ ->].
  apply Z.leb_le in Hnodes. by rewrite (proj2 (Z.leb_le _ _)) by lia.
Qed.

Lemma fewer_nodes_stay_valid_witness :
  (ValidationResult.Valid
     (@Validate fixture fixture_validator 0 (fixture_exp - 2) (fixture_exp - 1)
        "{alg:RS512}.{nodes:5,grace:7}.K#29" 5 "prod") = true
   /\ -1 <= 5)
  /\ ValidationResult.Valid
       (@Validate fixture fixture_validator 0 (fixture_exp - 2) (fixture_exp - 1)
          "{alg:RS512}.{nodes:5,grace:7}.K#29" (-1) "prod") = true.
Proof.
  assert (ValidationResult.Valid
            (@Validate fixture fixture_validator 0 (fixture_exp - 2) (fixture_exp - 1)
               "{alg:RS512}.{nodes:5,grace:7}.K#29" 5 "prod") = true) as Hvalid
    by (vm_compute; reflexivity).
  assert (-1 <= 5) as Hfewer by lia.
  exact (conj (conj Hvalid Hfewer)
           (@fewer_nodes_stay_valid fixture fixture_validator 0 (fixture_exp - 2)
              (fixture_exp - 1) "{alg:RS512}.{nodes:5,grace:7}.K#29" "prod" 5 (-1)
              Hvalid Hfewer)).
Defined.

(** X9. A license with no grace days, or with a negative number of them,
    is never in its grace period: its verdict is the conjunction of the
    signature, expiry, node count and namespace checks. *)
Theorem no_grace_without_grace_days (now : time_Time) (license : License.t)
    (actualNodeCount : Z) (actualNamespace : string) (incoming : ValidationResult.t) :
  let result := Validate_checks now license actualNodeCount actualNamespace incoming in
  License.GracePeriodDays license <= 0 ->
  in_int64 (License.ExpiresAt license / time_Second + License.GracePeriodDays license * 86400) ->
  ValidationResult.IsInGracePeriod result = false
  /\ ValidationResult.Valid result = ValidationResult.SignatureValid incoming
                                    && ValidationResult.ExpiryValid result
                                    && ValidationResult.NodeCountValid result
                                    && ValidationResult.NamespaceValid result.
Proof.
  intros result Hdays Hfits. subst result.
  rewrite checks_Valid, checks_IsInGracePeriod, checks_ExpiryValid, checks_NodeCountValid,
    checks_NamespaceValid.
  rewrite (time_AddDate_days_exact _ _ Hfits).
  assert (time_After now (License.ExpiresAt license)
          && time_Before now (License.ExpiresAt license
                              + License.GracePeriodDays license * (24 * time_Hour)) = false) as ->.
  { unfold time_After, time_Before, time_Hour, time_Second.
    destruct (Z.ltb_spec (License.ExpiresAt license) now); [| done].
    apply Z.ltb_ge. lia. }
  by rewrite orb_false_r.
Qed.

Lemma no_grace_without_grace_days_witness :
  let incoming := parsed_result (fixture_exp - 1) 3 "prod" in
  let result := Validate_checks (fixture_exp + 1) fixture_license_no_grace 3 "prod" incoming in
  (License.GracePeriodDays fixture_license_no_grace <= 0
   /\ in_int64 (License.ExpiresAt fixture_license_no_grace / time_Second
                + License.GracePeriodDays fixture_license_no_grace * 86400))
  /\ ValidationResult.IsInGracePeriod result = false
  /\ ValidationResult.Valid result = ValidationResult.SignatureValid incoming
                                    && ValidationResult.ExpiryValid result
                                    && ValidationResult.NodeCountValid result
                                    && ValidationResult.NamespaceValid result.
Proof.
  intros incoming result.
  assert (License.GracePeriodDays fixture_license_no_grace <= 0) as Hdays
    by (vm_compute; discriminate).
  assert (in_int64 (License.ExpiresAt fixture_license_no_grace / time_Second
                    + License.GracePeriodDays fixture_license_no_grace * 86400)) as Hfits
    by (vm_compute; split; discriminate).
  exact (conj (conj Hdays Hfits)
           (no_grace_without_grace_days (fixture_exp + 1) fixture_license_no_grace 3 "prod"
              incoming Hdays Hfits)).
Defined.

(** ** Status, message and delivery of the report *)

(** X10. [getValidationStatus] gives one of six names, and [valid] exactly
    for the results whose verdict is [Valid]. *)
Theorem status_is_valid_iff_verdict (result : ValidationResult.t) :
  getValidationStatus result ∈ status_names
  /\ (getValidationStatus result = "valid" <-> ValidationResult.Valid result = true).
Proof.
  unfold getValidationStatus, status_names.
  repeat match goal with |- context [if ?b then _ else _] => destruct b end;
    (split; [rewrite !elem_of_cons; repeat (first [left; reflexivity | right]) | done]).
Qed.

(** X11. For a result without an error, the message is the one of its
    status, for each of the six statuses. *)
Theorem message_matches_status_without_error (result : ValidationResult.t) :
  ValidationResult.Error result = None ->
  (getValidationStatus result = "valid" -> getValidationMessage result = "License is valid")
  /\ (getValidationStatus result = "grace_period" ->
      getValidationMessage result = grace_message result)
  /\ (getValidationStatus result = "expired" ->
      getValidationMessage result = "License has expired")
  /\ (getValidationStatus result = "node_limit_exceeded" ->
      getValidationMessage result = node_limit_message result)
  /\ (getValidationStatus result = "invalid_signature" ->
      getValidationMessage result = "Invalid license signature")
  /\ (getValidationStatus result = "invalid" ->
      getValidationMessage result = "License validation failed").
Proof.
  intros Herror. unfold getValidationStatus, getValidationMessage. rewrite Herror.
  repeat match goal with |- context [if ?b then _ else _] => destruct b end;
    repeat split; done.
Qed.

Lemma message_matches_status_without_error_witness :
  ValidationResult.Error fixture_result = None
  /\ (getValidationStatus fixture_result = "valid" ->
      getValidationMessage fixture_result = "License is valid")
  /\ (getValidationStatus fixture_result = "grace_period" ->
      getValidationMessage fixture_result = grace_message fixture_result)
  /\ (getValidationStatus fixture_result = "expired" ->
      getValidationMessage fixture_result = "License has expired")
  /\ (getValidationStatus fixture_result = "node_limit_exceeded" ->
      getValidationMessage fixture_result = node_limit_message fixture_result)
  /\ (getValidationStatus fixture_result = "invalid_signature" ->
      getValidationMessage fixture_result = "Invalid license signature")
  /\ (getValidationStatus fixture_result = "invalid" ->
      getValidationMessage fixture_result = "License validation failed").
Proof.
  assert (ValidationResult.Error fixture_result = None) as Herror by (vm_compute; reflexivity).
  exact (conj Herror (message_matches_status_without_error fixture_result Herror)).
Defined.

(** X12. The results of [Validate] are never reported as
    [invalid_signature].  A token the parser rejects, whatever the reason,
    gives no license and is reported as [expired], with the parser's error
    as the message; [invalid] is reported for a namespace mismatch only. *)
Theorem rejected_token_is_classified_expired `{jwt_Primitives}
    (v : Validator) (t_start t_parse t_check : time_Time)
    (licenseJWT : string) (actualNodeCount : Z) (actualNamespace : string) :
  let result := Validate v t_start t_parse t_check licenseJWT actualNodeCount actualNamespace in
  getValidationStatus result ∈ reported_statuses
  /\ (ValidationResult.License result = None ->
      getValidationStatus result = "expired"
      /\ exists err,
           jwt_ParseWithClaims t_parse licenseJWT (keyFunc v) = inl err
           /\ getValidationMessage result = "JWT validation failed: " +:+ Error err)
  /\ (getValidationStatus result = "invalid" ->
      ValidationResult.NamespaceValid result = false
      /\ ValidationResult.ExpiryValid result = true
      /\ ValidationResult.NodeCountValid result = true).
Proof.
  intros result. subst result.
  destruct (Validate_cases v t_start t_parse t_check licenseJWT actualNodeCount actualNamespace)
    as [(err & Hparse & ->) | (token & _ & ->)].
  - split.
    { unfold reported_statuses. cbn. rewrite !elem_of_cons. right. right. by left. }
    split; [| done]. intros _. split; [done |]. by exists err.
  - rewrite checks_License, checks_NamespaceValid, checks_ExpiryValid, checks_NodeCountValid.
    unfold getValidationStatus.
    rewrite checks_Valid, checks_IsInGracePeriod, checks_ExpiryValid, checks_NodeCountValid,
      checks_SignatureValid.
    cbn [parsed_result ValidationResult.SignatureValid].
    destruct (time_Before t_check _), (time_After t_check _ && _), (_ <=? _), (String.eqb _ _);
      cbn;
      (split; [unfold reported_statuses; rewrite !elem_of_cons;
               repeat (first [left; reflexivity | right]) |]); done.
Qed.

(** X13. [sendRequest] returns nil exactly when the server responded with
    a status code from 200 to 299 and a body that decodes to the status
    [success] or [ok]. *)
Theorem sendRequest_succeeds_iff (outcome : transport_Outcome) :
  sendRequest outcome = None
  <-> exists StatusCode phoneHomeResp,
        outcome = Responded StatusCode (inr phoneHomeResp)
        /\ 200 <= StatusCode < 300
        /\ (PhoneHomeResponse.Status phoneHomeResp = "success"
            \/ PhoneHomeResponse.Status phoneHomeResp = "ok").
Proof.
  split.
  - destruct outcome as [? | ? | ? | StatusCode [? | phoneHomeResp]]; cbn; try done.
    + by destruct (_ || _).
    + destruct (Z.ltb_spec StatusCode 200); [done |].
      destruct (Z.leb_spec 300 StatusCode); [done |]. cbn.
      destruct (String.eqb_spec (PhoneHomeResponse.Status phoneHomeResp) "success").
      { intros _. eexists _, _. split; [done |]. split; [lia | by left]. }
      destruct (String.eqb_spec (PhoneHomeResponse.Status phoneHomeResp) "ok"); [| done].
      intros _. eexists _, _. split; [done |]. split; [lia | by right].
  - intros (StatusCode & phoneHomeResp & -> & Hcode & Hstatus). cbn.
    rewrite (proj2 (Z.ltb_ge _ _)), (proj2 (Z.leb_gt _ _)) by lia. cbn.
    destruct Hstatus as [-> | ->]; done.
Qed.

Lemma retry_rounds_snoc n attempt :
  retry_rounds (S n) attempt
  = retry_rounds n attempt
    ++ [Waited ((attempt + Z.of_nat n) * (attempt + Z.of_nat n) * time_Second);
        Sent (attempt + Z.of_nat n)].
Proof.
  revert attempt. induction n as [| n IH]; intros attempt.
  - cbn. by rewrite Z.add_0_r.
  - change (retry_rounds (S (S n)) attempt)
      with (Waited (attempt * attempt * time_Second) :: Sent attempt
            :: retry_rounds (S n) (attempt + 1)).
    rewrite IH. cbn [retry_rounds app].
    by replace (attempt + 1 + Z.of_nat n) with (attempt + Z.of_nat (S n)) by lia.
Qed.

Section LoopMore.
Variables (c : Client) (env : Delivery) (req : PhoneHomeRequest.t).

(** The tries before [k] fail, the waits up to [k] complete and try [k]
    succeeds: the loop returns nil there. *)
Lemma send_with_retries_succeeds (k : Z) :
  k <= retries c -> k <= max_backoff_attempt ->
  (forall j, 1 <= j < k -> is_Some (sendRequest (transport env j (validate_url c) req))) ->
  sendRequest (transport env k (validate_url c) req) = None ->
  (forall j, 1 <= j <= k -> ctx_Done env j = None) ->
  forall (n : nat) (attempt : Z) (lastErr : option error) (fuel : nat),
    1 <= attempt ->
    attempt + Z.of_nat n = k ->
    (n < fuel)%nat ->
    send_with_retries fuel c env req attempt lastErr
    = Some (retry_rounds (S n) attempt, None).
Proof.
  intros Hk Hbound Hfails Hsucceeds Hwaits.
  induction n as [| n IH]; intros attempt lastErr fuel Hpos Hcount Hfuel;
    (destruct fuel as [| fuel]; [lia |]); cbn [send_with_retries];
    rewrite (proj2 (Z.leb_le _ _)) by lia;
    rewrite (proj2 (Z.ltb_lt _ _)) by lia;
    rewrite Hwaits by lia; unfold validate_url in *.
  - assert (attempt = k) as -> by lia. rewrite Hsucceeds. cbn.
    by rewrite backoff_of_square by lia.
  - destruct (Hfails attempt ltac:(lia)) as [err ->].
    rewrite wrap64_id by (unfold in_int64, min_int64, max_int64, max_backoff_attempt in *; lia).
    rewrite (IH (attempt + 1) (Some err) fuel) by lia.
    cbn. by rewrite backoff_of_square by lia.
Qed.

(** Whatever the server and the context do, the loop returns, having tried
    consecutive attempt numbers, no more than remain. *)
Lemma send_with_retries_bounded :
  retries c < max_int64 ->
  forall (m : nat) (attempt : Z) (lastErr : option error) (fuel : nat),
    0 <= attempt ->
    retries c + 1 - attempt <= Z.of_nat m ->
    (m < fuel)%nat ->
    exists trace r count,
      send_with_retries fuel c env req attempt lastErr = Some (trace, r)
      /\ tries trace = seqZ attempt count
      /\ 0 <= count <= Z.of_nat m
      /\ (r = None -> exists front last, trace = front ++ [Sent last]).
Proof.
  intros Hmax. induction m as [| m IH]; intros attempt lastErr fuel Hpos Hleft Hfuel;
    (destruct fuel as [| fuel]; [lia |]); cbn [send_with_retries].
  - rewrite (proj2 (Z.leb_gt _ _)) by lia.
    eexists _, _, 0. split; [done |]. split; [done |]. split; [lia | done].
  - destruct (Z.leb_spec attempt (retries c)); cycle 1.
    { eexists _, _, 0. split; [done |]. split; [done |]. split; [lia | done]. }
    destruct (if 0 <? attempt then ctx_Done env attempt else None) as [reason |].
    { eexists _, _, 0. split; [done |]. split; [done |]. split; [lia | done]. }
    assert (tries (if 0 <? attempt then [Waited (backoff_of attempt)] else []) = []) as Hwaited
      by (by destruct (0 <? attempt)).
    destruct (sendRequest _) as [err |].
    + rewrite wrap64_id by (unfold in_int64, min_int64, max_int64 in *; lia).
      destruct (IH (attempt + 1) (Some err) fuel) as (rest & r & count & -> & Htries & Hcount & Hlast);
        [lia .. |].
      cbn. eexists _, r, (count + 1). split; [done |].
      rewrite tries_app, Hwaited, tries_Sent, Htries. split.
      { cbn. rewrite (seqZ_cons attempt (count + 1)) by lia. do 2 f_equal; lia. }
      split; [lia |]. intros Hnone. destruct (Hlast Hnone) as (front & last & ->).
      eexists (_ ++ Sent attempt :: front), last. by rewrite <- app_assoc.
    + eexists _, None, 1. split; [done |].
      rewrite tries_app, Hwaited. split; [done |]. split; [lia |]. intros _. by eexists _, _.
Qed.

End LoopMore.

(** X14. Delivery stops at the first try that succeeds: when the tries
    before number [k] fail, try [k] succeeds and the context stays open
    through the waits, [SendPhoneHome] returns nil after [k + 1] requests
    and [k] waits of one, four, ... [k] squared seconds, and makes no
    further try. *)
Theorem delivery_stops_at_first_success (c : Client) (env : Delivery) (now : time_Time)
    (result : ValidationResult.t) (lic : License.t) (fuel : nat) (k : Z) :
  let req := prepare_request now result lic in
  ValidationResult.License result = Some lic ->
  0 <= k <= retries c ->
  k <= max_backoff_attempt ->
  (forall j, 0 <= j < k -> is_Some (sendRequest (transport env j (validate_url c) req))) ->
  sendRequest (transport env k (validate_url c) req) = None ->
  (forall j, 1 <= j <= k -> ctx_Done env j = None) ->
  (Z.to_nat k + 1 <= fuel)%nat ->
  SendPhoneHome fuel c env now (Some result)
  = Some (Sent 0 :: retry_rounds (Z.to_nat k) 1, None).
Proof.
  intros req Hlicense Hk Hbound Hfails Hsucceeds Hwaits Hfuel.
  destruct fuel as [| fuel]; [lia |].
  assert (SendPhoneHome (S fuel) c env now (Some result)
          = send_with_retries (S fuel) c env req 0 None) as ->.
  { unfold SendPhoneHome. cbn [mbind option_bind]. rewrite Hlicense. reflexivity. }
  cbn [send_with_retries].
  rewrite (proj2 (Z.leb_le _ _)) by lia. rewrite Z.ltb_irrefl.
  destruct (Z.eq_dec k 0) as [-> | Hpositive].
  - unfold validate_url in Hsucceeds. rewrite Hsucceeds. reflexivity.
  - destruct (Hfails 0 ltac:(lia)) as [first Hfirst].
    unfold validate_url in Hfirst. rewrite Hfirst.
    change (wrap64 (0 + 1)) with 1.
    rewrite (send_with_retries_succeeds c env req k (proj2 Hk) Hbound
               ltac:(intros j Hj; apply Hfails; lia) Hsucceeds Hwaits
               (Z.to_nat (k - 1)) 1 (Some first) fuel) by lia.
    replace (Z.to_nat k) with (S (Z.to_nat (k - 1))) by lia. reflexivity.
Qed.

Lemma delivery_stops_at_first_success_witness :
  let c := NewClient "https://license.example" (30 * time_Second) 3 in
  let req := prepare_request 0 fixture_result fixture_license in
  (ValidationResult.License fixture_result = Some fixture_license
   /\ 0 <= 2 <= retries c
   /\ 2 <= max_backoff_attempt
   /\ (forall j, 0 <= j < 2 ->
       is_Some (sendRequest (transport recovering_server j (validate_url c) req)))
   /\ sendRequest (transport recovering_server 2 (validate_url c) req) = None
   /\ (forall j, 1 <= j <= 2 -> ctx_Done recovering_server j = None)
   /\ (Z.to_nat 2 + 1 <= 5)%nat)
  /\ SendPhoneHome 5 c recovering_server 0 (Some fixture_result)
     = Some ([Sent 0; Waited (1 * 1 * time_Second); Sent 1; Waited (2 * 2 * time_Second); Sent 2],
             None).
Proof.
  intros c req.
  assert (ValidationResult.License fixture_result = Some fixture_license) as Hlicense
    by (vm_compute; reflexivity).
  assert (0 <= 2 <= retries c) as Hk by (vm_compute; split; discriminate).
  assert (2 <= max_backoff_attempt) as Hbound by (vm_compute; discriminate).
  assert (forall j, 0 <= j < 2 ->
            is_Some (sendRequest (transport recovering_server j (validate_url c) req)))
    as Hfails.
  { intros j Hj. cbn [transport recovering_server].
    rewrite (proj2 (Z.ltb_lt j 2)) by lia. eexists. reflexivity. }
  assert (sendRequest (transport recovering_server 2 (validate_url c) req) = None) as Hsucceeds
    by reflexivity.
  assert (forall j, 1 <= j <= 2 -> ctx_Done recovering_server j = None) as Hwaits
    by reflexivity.
  assert (Z.to_nat 2 + 1 <= 5)%nat as Hfuel by (vm_compute; lia).
  exact (conj (conj Hlicense (conj Hk (conj Hbound (conj Hfails (conj Hsucceeds
                 (conj Hwaits Hfuel))))))
           (delivery_stops_at_first_success c recovering_server 0 fixture_result
              fixture_license 5 2 Hlicense Hk Hbound Hfails Hsucceeds Hwaits Hfuel)).
Defined.

(** X15. Delivery ends, whatever the server answers and whenever the
    context is cancelled: with a retry count below the largest [int],
    [SendPhoneHome] returns after tries numbered consecutively from zero,
    at most one more than the retry count, and returns nil only when its
    last action was a request. *)
Theorem delivery_never_exceeds_its_tries (c : Client) (env : Delivery) (now : time_Time)
    (result : ValidationResult.t) (lic : License.t) (fuel : nat) :
  ValidationResult.License result = Some lic ->
  retries c < max_int64 ->
  (Z.to_nat (retries c + 1) < fuel)%nat ->
  exists trace r count,
    SendPhoneHome fuel c env now (Some result) = Some (trace, r)
    /\ tries trace = seqZ 0 count
    /\ 0 <= count <= Z.max 0 (retries c + 1)
    /\ (r = None -> exists front last, trace = front ++ [Sent last]).
Proof.
  intros Hlicense Hmax Hfuel.
  assert (SendPhoneHome fuel c env now (Some result)
          = send_with_retries fuel c env (prepare_request now result lic) 0 None) as ->.
  { unfold SendPhoneHome. cbn [mbind option_bind]. rewrite Hlicense. reflexivity. }
  destruct (send_with_retries_bounded c env (prepare_request now result lic) Hmax
              (Z.to_nat (retries c + 1)) 0 None fuel) as (trace & r & count & H1 & H2 & H3 & H4);
    [lia .. |].
  exists trace, r, count. repeat split; try done; lia.
Qed.

Lemma delivery_never_exceeds_its_tries_witness :
  let c := NewClient "https://license.example" (30 * time_Second) 3 in
  (ValidationResult.License fixture_result = Some fixture_license
   /\ retries c < max_int64
   /\ (Z.to_nat (retries c + 1) < 5)%nat)
  /\ exists trace r count,
       SendPhoneHome 5 c unavailable_server_cancelled 0 (Some fixture_result) = Some (trace, r)
       /\ tries trace = seqZ 0 count
       /\ 0 <= count <= Z.max 0 (retries c + 1)
       /\ (r = None -> exists front last, trace = front ++ [Sent last]).
Proof.
  intros c.
  assert (ValidationResult.License fixture_result = Some fixture_license) as Hlicense
    by (vm_compute; reflexivity).
  assert (retries c < max_int64) as Hmax by (vm_compute; reflexivity).
  assert (Z.to_nat (retries c + 1) < 5)%nat as Hfuel by (vm_compute; lia).
  exact (conj (conj Hlicense (conj Hmax Hfuel))
           (delivery_never_exceeds_its_tries c unavailable_server_cancelled 0 fixture_result
              fixture_license 5 Hlicense Hmax Hfuel)).
Defined.

(** ** The validation cycle and its loop *)

Section ServiceMore.
Context `{jwt_Primitives}.





End ServiceMore.

(** X16. A cycle that cannot read the license, because the secret cannot
    be fetched or lacks the configured key, stores an invalid result
    without a license, with an error and the cycle's starting time,
    dispatches no report, and leaves the service not ready, [FailOpen] or
    not. *)
Theorem unreadable_license_stores_invalid_result `{jwt_Primitives}
    (s : ValidatorService) (w : Cycle) :
  read_token s w = None ->
  exists result err,
    currentResult (runValidation s w).1 = Some result
    /\ (runValidation s w).2 = None
    /\ ValidationResult.Valid result = false
    /\ ValidationResult.License result = None
    /\ ValidationResult.Error result = Some err
    /\ ValidationResult.ValidationTime result = now_start w
    /\ http_Response.StatusCode (readyHandler (runValidation s w).1)
       = http_StatusServiceUnavailable.
Proof.
  unfold read_token, readyHandler, runValidation.
  destruct (secret_Get w) as [err | Data].
  - intros _. eexists _, _. repeat split; try done. cbn. by rewrite andb_false_r.
  - intros ->. eexists _, _. repeat split; try done. cbn. by rewrite andb_false_r.
Qed.

Lemma unreadable_license_stores_invalid_result_witness :
  let after := (@runValidation fixture fixture_service unreadable_cycle).1 in
  @read_token fixture fixture_service unreadable_cycle = None
  /\ exists result err,
       currentResult after = Some result
       /\ (@runValidation fixture fixture_service unreadable_cycle).2 = None
       /\ ValidationResult.Valid result = false
       /\ ValidationResult.License result = None
       /\ ValidationResult.Error result = Some err
       /\ ValidationResult.ValidationTime result = now_start unreadable_cycle
       /\ http_Response.StatusCode (readyHandler after) = http_StatusServiceUnavailable.
Proof.
  intros after.
  assert (@read_token fixture fixture_service unreadable_cycle = None) as Hread
    by reflexivity.
  exact (conj Hread
           (@unreadable_license_stores_invalid_result fixture fixture_service unreadable_cycle
              Hread)).
Defined.

(** X17. A cycle dispatches at most one report, the result it stores, and
    does so exactly when phone home is enabled, the service has a reporter
    and the stored result carries a license. *)
Theorem report_needs_license_and_reporter `{jwt_Primitives}
    (s : ValidatorService) (w : Cycle) :
  let stored := currentResult (runValidation s w).1 in
  ((runValidation s w).2 = None \/ (runValidation s w).2 = stored)
  /\ (is_Some (runValidation s w).2
      <-> Config.PhoneHomeEnabled (cfg s) = true
          /\ is_Some (phoneHomeClient s)
          /\ is_Some (stored ≫= ValidationResult.License)).
Proof.
  unfold runValidation.
  destruct (secret_Get w) as [err | Data].
  { cbn. split; [by left |]. split; [by intros [? ?] | by intros (_ & _ & [? ?])]. }
  destruct (Data !! _) as [licenseJWT |]; cycle 1.
  { cbn. split; [by left |]. split; [by intros [? ?] | by intros (_ & _ & [? ?])]. }
  destruct (CountLabeledNodes _) as [nodeCount err]. cbn.
  destruct (Config.PhoneHomeEnabled (cfg s)); cbn; cycle 1.
  { split; [by left |]. split; [by intros [? ?] | by intros ([=] & _)]. }
  destruct (decide (is_Some (phoneHomeClient s))) as [Hclient | Hclient].
  - rewrite (bool_decide_true _ Hclient). cbn.
    destruct (decide (is_Some (ValidationResult.License
                (Validate (validator s) (now_start w) (now_parse w) (now_check w) licenseJWT
                   match err with Some _ => 0 | None => nodeCount end
                   (Config.LicenseSecretNamespace (cfg s)))))) as [Hlicense | Hlicense].
    + rewrite (bool_decide_true _ Hlicense). cbn. split; [by right |]. split; [done |].
      intros _. by eexists.
    + rewrite (bool_decide_false _ Hlicense). cbn. split; [by left |].
      split; [by intros [? ?] | by intros (_ & _ & ?)].
  - rewrite (bool_decide_false _ Hclient). cbn. split; [by left |].
    split; [by intros [? ?] | by intros (_ & ? & _)].
Qed.

(** X18. The node count a cycle stores is never negative: it is zero when
    listing the nodes fails, and the number of nodes listed when the
    license was read and the listing succeeded. *)
Theorem stored_node_count_is_not_negative `{jwt_Primitives}
    (s : ValidatorService) (w : Cycle) (result : ValidationResult.t) :
  currentResult (runValidation s w).1 = Some result ->
  0 <= ValidationResult.NodeCount result
  /\ (forall err, nodes_List w = inl err -> ValidationResult.NodeCount result = 0)
  /\ (forall items, nodes_List w = inr items -> is_Some (read_token s w) ->
      ValidationResult.NodeCount result = Z.of_nat (length items)).
Proof.
  unfold runValidation, read_token.
  destruct (secret_Get w) as [err | Data].
  { cbn. intros [= <-]. cbn. split; [lia |]. split; [done |]. by intros ? _ [? ?]. }
  destruct (Data !! _) as [licenseJWT |]; cycle 1.
  { cbn. intros [= <-]. cbn. split; [lia |]. split; [done |]. by intros ? _ [? ?]. }
  destruct (nodes_List w) as [err | items]; cbn.
  - destruct (_ && _); cbn; intros [= <-]; rewrite Validate_NodeCount; by repeat split.
  - destruct (_ && _); cbn; intros [= <-]; rewrite Validate_NodeCount;
      (split; [lia |]; split; [done |]; by intros ? [= <-]).
Qed.

Lemma stored_node_count_is_not_negative_witness :
  let result :=
    @Validate fixture fixture_validator (fixture_exp - 3) (fixture_exp - 2) (fixture_exp - 1)
      "{alg:RS512}.{nodes:5,grace:7}.K#29" 2 "prod" in
  @currentResult fixture (@runValidation fixture fixture_service counted_cycle).1 = Some result
  /\ 0 <= ValidationResult.NodeCount result
  /\ (forall err, nodes_List counted_cycle = inl err -> ValidationResult.NodeCount result = 0)
  /\ (forall items, nodes_List counted_cycle = inr items ->
      is_Some (@read_token fixture fixture_service counted_cycle) ->
      ValidationResult.NodeCount result = Z.of_nat (length items)).
Proof.
  intros result.
  assert (@currentResult fixture (@runValidation fixture fixture_service counted_cycle).1
          = Some result) as Hstored by (vm_compute; reflexivity).
  exact (conj Hstored
           (@stored_node_count_is_not_negative fixture fixture_service counted_cycle result
              Hstored)).
Defined.


(** ** The probes *)

(** X20. The readiness probe answers 200 or 503, and 200 exactly when a
    result is stored that is valid, or in its grace period while the
    service fails open; the body of the 200 answer is the status
    [ready]. *)
Theorem ready_iff_valid_or_failing_open `{jwt_Primitives} (s : ValidatorService) :
  (http_Response.StatusCode (readyHandler s) = http_StatusOK
   \/ http_Response.StatusCode (readyHandler s) = http_StatusServiceUnavailable)
  /\ (http_Response.StatusCode (readyHandler s) = http_StatusOK
      <-> exists result,
            currentResult s = Some result
            /\ (ValidationResult.Valid result = true
                \/ Config.FailOpen (cfg s) = true
                   /\ ValidationResult.IsInGracePeriod result = true))
  /\ (http_Response.StatusCode (readyHandler s) = http_StatusOK ->
      http_Response.Body (readyHandler s) = {["status" := BString "ready"]}).
Proof.
  unfold readyHandler, http_StatusOK, http_StatusServiceUnavailable.
  destruct (currentResult s) as [result |]; cycle 1.
  { cbn. split; [by right |]. split; [| done]. split; [done |].
    intros (? & Hnone & _). discriminate Hnone. }
  destruct (ValidationResult.Valid result || _) eqn:Hready; cbn.
  - split; [by left |]. split; [| done]. split; [| done].
    intros _. exists result. split; [done |].
    apply orb_true_iff in Hready as [? | Hopen]; [by left | right].
    by apply andb_true_iff in Hopen.
  - split; [by right |]. split; [| done]. split; [done |].
    intros (? & [= <-] & Hcases). apply orb_false_iff in Hready as [Hvalid Hopen].
    destruct Hcases as [? | [Hfail Hgrace]]; [congruence |].
    rewrite Hfail, Hgrace in Hopen. discriminate Hopen.
Qed.

Section StatusFacts.
Context `{jwt_Primitives}.
Variable time_Format_RFC3339 : time_Time -> string.

(** Away from the keys [license] and [error], the body of the status
    answer is the map of the twelve entries always written. *)
Lemma statusHandler_Body (s : ValidatorService) (result : ValidationResult.t) (key : string) :
  currentResult s = Some result ->
  key <> "license" -> key <> "error" ->
  http_Response.Body (statusHandler time_Format_RFC3339 s) !! key
  = ( <["valid" := BBool (ValidationResult.Valid result)]>
        (<["validation_time" :=
             BString (time_Format_RFC3339 (ValidationResult.ValidationTime result))]>
           (<["node_count" := BInt (ValidationResult.NodeCount result)]>
              (<["licensed_nodes" := BInt (ValidationResult.LicensedNodes result)]>
                 (<["days_until_expiry" := BInt (ValidationResult.DaysUntilExpiry result)]>
                    (<["in_grace_period" := BBool (ValidationResult.IsInGracePeriod result)]>
                       (<["signature_valid" := BBool (ValidationResult.SignatureValid result)]>
                          (<["expiry_valid" := BBool (ValidationResult.ExpiryValid result)]>
                             (<["node_count_valid" :=
                                  BBool (ValidationResult.NodeCountValid result)]>
                                (<["namespace_valid" :=
                                     BBool (ValidationResult.NamespaceValid result)]>
                                   (<["actual_namespace" :=
                                        BString (ValidationResult.ActualNamespace result)]>
                                      (<["license_namespace" :=
                                           BString (ValidationResult.LicenseNamespace result)]>
                                         ∅))))))))))) : gmap string body_value) !! key.
Proof.
  intros Hresult Hlicense Herror. unfold statusHandler. rewrite Hresult. cbn.
  destruct (ValidationResult.Error result), (ValidationResult.License result);
    by rewrite ?lookup_insert_ne by done.
Qed.

End StatusFacts.

(** X21. The status endpoint answers 503 before the first result, and
    afterwards 200 with a body that shows the stored verdict and each of
    its checks as they are, the error text exactly when the result has an
    error, and the license summary exactly when it has a license. *)
Theorem status_reports_every_check `{jwt_Primitives}
    (time_Format_RFC3339 : time_Time -> string) (s : ValidatorService) :
  let response := statusHandler time_Format_RFC3339 s in
  (currentResult s = None ->
   http_Response.StatusCode response = http_StatusServiceUnavailable)
  /\ (forall result,
        currentResult s = Some result ->
        http_Response.StatusCode response = http_StatusOK
        /\ http_Response.Body response !! "valid" = Some (BBool (ValidationResult.Valid result))
        /\ http_Response.Body response !! "signature_valid"
           = Some (BBool (ValidationResult.SignatureValid result))
        /\ http_Response.Body response !! "expiry_valid"
           = Some (BBool (ValidationResult.ExpiryValid result))
        /\ http_Response.Body response !! "in_grace_period"
           = Some (BBool (ValidationResult.IsInGracePeriod result))
        /\ http_Response.Body response !! "node_count_valid"
           = Some (BBool (ValidationResult.NodeCountValid result))
        /\ http_Response.Body response !! "namespace_valid"
           = Some (BBool (ValidationResult.NamespaceValid result))
        /\ http_Response.Body response !! "error"
           = (fun err => BString (Error err)) <$> ValidationResult.Error result
        /\ http_Response.Body response !! "license"
           = (fun license => BObject (license_summary time_Format_RFC3339 license))
               <$> ValidationResult.License result).
Proof.
  intros response. subst response. split.
  { intros Hnone. unfold statusHandler. by rewrite Hnone. }
  intros result Hresult.
  split; [unfold statusHandler; by rewrite Hresult |].
  rewrite !(statusHandler_Body time_Format_RFC3339 s result _ Hresult) by done.
  do 6 (split; [by simplify_map_eq |]).
  unfold statusHandler. rewrite Hresult. cbn.
  destruct (ValidationResult.Error result), (ValidationResult.License result); cbn;
    split; by simplify_map_eq.
Qed.

(** ** The configuration *)

Lemma parse_digits_string_of_uint d n :
  parse_digits n (NilEmpty.string_of_uint d) = Some (digits_onto n d).
Proof. revert n. induction d; intros n; cbn; try done; apply IHd. Qed.

Lemma digits_onto_pos d p : digits_onto (Z.pos p) d = Z.pos (Pos.of_uint_acc d p).
Proof.
  revert p. induction d; intros p; cbn [digits_onto Pos.of_uint_acc]; [done | ..];
    match goal with
    | |- digits_onto ?n _ = Z.pos (Pos.of_uint_acc _ ?q) =>
        replace n with (Z.pos q) by lia; apply IHd
    end.
Qed.

Lemma digits_onto_zero d : digits_onto 0 d = Z.of_N (Pos.of_uint d).
Proof.
  induction d; cbn [digits_onto Pos.of_uint]; try done;
    match goal with
    | |- digits_onto ?n _ = _ => let n' := eval vm_compute in n in change n with n'
    end;
    first [exact IHd | by rewrite digits_onto_pos].
Qed.

Lemma parse_digits_to_uint p :
  parse_digits 0 (NilEmpty.string_of_uint (Pos.to_uint p)) = Some (Z.pos p).
Proof.
  by rewrite parse_digits_string_of_uint, digits_onto_zero, DecimalPos.Unsigned.of_to.
Qed.

(** The digits of a positive number start with a digit. *)
Lemma string_of_to_uint_head p :
  exists c rest,
    NilZero.string_of_uint (Pos.to_uint p) = String c rest
    /\ NilEmpty.string_of_uint (Pos.to_uint p) = String c rest
    /\ Ascii.eqb c "-"%char = false /\ Ascii.eqb c "+"%char = false.
Proof.
  pose proof (DecimalPos.Unsigned.to_uint_nonnil p) as Hnonnil.
  destruct (Pos.to_uint p); [done | ..]; by eexists _, _.
Qed.

(** Formatting an [int] with [%d] and reading it back with [Atoi]. *)
Lemma Atoi_fmt_d n : in_int64 n -> strconv_Atoi (fmt_d n) = Some n.
Proof.
  unfold in_int64, fmt_d. intros Hrange.
  destruct n as [| p | p]; cbn [Z.to_int NilZero.string_of_int]; [done | ..];
    destruct (string_of_to_uint_head p) as (c & rest & Hzero & Hempty & Hminus & Hplus);
    pose proof (parse_digits_to_uint p) as Hparse; rewrite Hempty in Hparse.
  - rewrite Hzero. unfold strconv_Atoi. rewrite Hminus, Hplus. cbn [orb].
    rewrite Hparse.
    by rewrite (proj2 (Z.leb_le _ _)), (proj2 (Z.leb_le _ _)) by lia.
  - rewrite Hzero. unfold strconv_Atoi.
    change (String.append "-" (String c rest)) with (String "-" (String c rest)).
    cbn [Ascii.eqb Bool.eqb orb]. rewrite Hparse.
    by rewrite (proj2 (Z.leb_le _ _)), (proj2 (Z.leb_le _ _)) by lia.
Qed.

Lemma Atoi_in_range s i : strconv_Atoi s = Some i -> in_int64 i.
Proof.
  unfold strconv_Atoi. intros Hatoi.
  repeat case_match; try discriminate Hatoi.
  all: injection Hatoi as <-.
  all: match goal with Hin : (_ <=? _) && (_ <=? _) = true |- _ =>
         apply andb_true_iff in Hin as [? ?]; split; by apply Z.leb_le end.
Qed.

(** X22. A variable set to the empty string counts as unset: each of the
    four readers returns its default for it, as for a variable that is
    absent. *)
Theorem empty_variable_counts_as_unset (time_ParseDuration : string -> option time_Duration)
    (env : gmap string string) (key : string) :
  env !! key = None \/ env !! key = Some ("" : string) ->
  (forall defaultValue, getEnv env key defaultValue = defaultValue)
  /\ (forall defaultValue, getEnvInt env key defaultValue = defaultValue)
  /\ (forall defaultValue, getEnvBool env key defaultValue = defaultValue)
  /\ (forall defaultValue, getEnvDuration time_ParseDuration env key defaultValue = defaultValue).
Proof.
  intros Hunset.
  assert (os_Getenv env key = "") as Hempty by (unfold os_Getenv; by destruct Hunset as [-> | ->]).
  unfold getEnv, getEnvInt, getEnvBool, getEnvDuration. by rewrite Hempty.
Qed.

Lemma empty_variable_counts_as_unset_witness :
  let env : gmap string string := {["HTTP_PORT" := ""]} in
  let time_ParseDuration : string -> option time_Duration := fun _ => Some (5 * time_Second) in
  (env !! "HTTP_PORT" = None \/ env !! "HTTP_PORT" = Some ("" : string))
  /\ (forall defaultValue, getEnv env "HTTP_PORT" defaultValue = defaultValue)
  /\ (forall defaultValue, getEnvInt env "HTTP_PORT" defaultValue = defaultValue)
  /\ (forall defaultValue, getEnvBool env "HTTP_PORT" defaultValue = defaultValue)
  /\ (forall defaultValue,
        getEnvDuration time_ParseDuration env "HTTP_PORT" defaultValue = defaultValue).
Proof.
  intros env time_ParseDuration.
  assert (env !! "HTTP_PORT" = None \/ env !! "HTTP_PORT" = Some ("" : string)) as Hunset
    by (right; vm_compute; reflexivity).
  exact (conj Hunset (empty_variable_counts_as_unset time_ParseDuration env "HTTP_PORT" Hunset)).
Defined.

(** X23. [getEnvInt] reads back the decimal text of every [int], falls
    back to the default when [Atoi] rejects the text, and stays within the
    range of [int] when the default does. *)
Theorem getEnvInt_reads_decimal_or_defaults (env : gmap string string) (key : string)
    (defaultValue : Z) :
  (forall n, in_int64 n -> env !! key = Some (fmt_d n) -> getEnvInt env key defaultValue = n)
  /\ (strconv_Atoi (os_Getenv env key) = None -> getEnvInt env key defaultValue = defaultValue)
  /\ (in_int64 defaultValue -> in_int64 (getEnvInt env key defaultValue)).
Proof.
  unfold getEnvInt. split; [| split].
  - intros n Hrange Hvalue. unfold os_Getenv. rewrite Hvalue. cbn.
    pose proof (Atoi_fmt_d n Hrange) as Hatoi. rewrite Hatoi.
    destruct (String.eqb_spec (fmt_d n) "") as [Hempty |]; [| done].
    rewrite Hempty in Hatoi. discriminate Hatoi.
  - intros ->. by destruct (negb _).
  - intros Hrange. destruct (negb _); [| done].
    destruct (strconv_Atoi _) as [i |] eqn:Hatoi; [| done].
    by apply (Atoi_in_range _ _ Hatoi).
Qed.

(** X24. [getEnvBool] gives true exactly when the variable is one of the
    six spellings of true that [ParseBool] accepts, or the default is true
    and the variable is none of its six spellings of false. *)
Theorem getEnvBool_spellings (env : gmap string string) (key : string) (defaultValue : bool) :
  getEnvBool env key defaultValue = true
  <-> os_Getenv env key ∈ ["1"; "t"; "T"; "true"; "TRUE"; "True"]
      \/ (defaultValue = true
          /\ os_Getenv env key ∉ ["0"; "f"; "F"; "false"; "FALSE"; "False"]).
Proof.
  unfold getEnvBool, strconv_ParseBool.
  destruct (String.eqb_spec (os_Getenv env key) "") as [-> | _]; cbn.
  - split.
    + intros ->. right. split; [done |]. intros Hin.
      repeat (apply elem_of_cons in Hin as [Hin | Hin]; [discriminate Hin |]).
      by apply elem_of_nil in Hin.
    + intros [Hin | [-> _]]; [| done].
      repeat (apply elem_of_cons in Hin as [Hin | Hin]; [discriminate Hin |]).
      by apply elem_of_nil in Hin.
  - repeat case_bool_decide; split; try done.
    + by left.
    + intros [? | [_ ?]]; done.
    + intros ->. by right.
    + by intros [? | [-> _]].
Qed.

(** X25. [LoadConfig] fails exactly when the server URL is empty while
    phone home is enabled, which it is by default, so the empty
    environment is rejected; otherwise it returns a configuration with the
    URL and the switch read, and a grace period of zero days. *)
Theorem LoadConfig_requires_server_url (time_ParseDuration : string -> option time_Duration)
    (env : gmap string string) :
  let url := os_Getenv env "LICENSE_SERVER_URL" in
  let enabled := getEnvBool env "PHONE_HOME_ENABLED" true in
  (LoadConfig time_ParseDuration env
   = inl (errorString "LICENSE_SERVER_URL is required when PHONE_HOME_ENABLED=true")
   <-> url = "" /\ enabled = true)
  /\ (url <> "" \/ enabled = false ->
      exists cfg,
        LoadConfig time_ParseDuration env = inr cfg
        /\ Config.LicenseServerURL cfg = url
        /\ Config.PhoneHomeEnabled cfg = enabled
        /\ Config.GracePeriodDays cfg = 0)
  /\ LoadConfig time_ParseDuration ∅
     = inl (errorString "LICENSE_SERVER_URL is required when PHONE_HOME_ENABLED=true").
Proof.
  intros url enabled.
  assert (getEnv env "LICENSE_SERVER_URL" "" = url) as Hurl.
  { unfold getEnv. fold url. by destruct (String.eqb_spec url ""). }
  unfold LoadConfig. cbn [Config.LicenseServerURL Config.PhoneHomeEnabled].
  rewrite Hurl. fold enabled. split; [| split; [| done]].
  - destruct (String.eqb_spec url ""), enabled; cbn; split; try done; by intros [? ?].
  - intros Hloads.
    assert (String.eqb url "" && enabled = false) as ->.
    { destruct (String.eqb_spec url ""), enabled; try done. by destruct Hloads. }
    eexists. split; [reflexivity |].
    by cbn [Config.LicenseServerURL Config.PhoneHomeEnabled Config.GracePeriodDays].
Qed.
